(** * Equipment-Fault-Detection: the MQTT bearing-data sender

    A shallow embedding of [src/data_processing/mqtt_fault_sender.py]:
    the preprocessing of the bearing table ([load_bearing_data]), the
    message envelope and its JSON payload, and the publish session
    ([send_bearing_data_to_algorithm]).

    Numbers are binary64 floats (Rocq's primitive floats, the arithmetic
    Python and numpy use), integers are [Z], text is [string] holding the
    UTF-8 bytes of a Python [str], dictionaries are [gmap]s. The MQTT
    broker, the clock and the CSV reader are the outside world; they show
    up as a record of answers ([World]) and as the trace of calls made. *)

From Stdlib Require Import ZArith Floats Ascii String List Bool Lia.
From Stdlib Require Import DecimalFacts DecimalPos DecimalN.
From stdpp Require Import gmap strings list.

Local Open Scope string_scope.
Local Open Scope Z_scope.
Local Open Scope list_scope.

(** ** Binary64 helpers *)

Module F64.

(** The integer [z] as a spec float with an unbounded mantissa. *)
Definition SF_of_Z (z : Z) : spec_float :=
  match z with
  | Z0 => S754_zero false
  | Zpos p => S754_finite false p 0
  | Zneg p => S754_finite true p 0
  end.

(** [float(z)] for a Python int: the nearest binary64 (ties to even). *)
Definition of_Z (z : Z) : float :=
  SF2Prim (binary_normalize prec emax z 0 false).

(** [n / d] for Python ints with [d <> 0]: true division returns the
    binary64 nearest to the exact quotient. *)
Definition of_ratio (n d : Z) : float :=
  let s := Z.sgn d in
  SF2Prim (SFdiv prec emax (SF_of_Z (s * n)) (SF_of_Z (s * d))).

(** The exact value of a finite float as [m * 2^e]. *)
Definition exact (x : float) : option (Z * Z) :=
  match Prim2SF x with
  | S754_zero _ => Some (0, 0)
  | S754_finite s m e => Some (if s then Z.neg m else Z.pos m, e)
  | _ => None
  end.

(** Truncation toward zero, as [int(x)] does on a finite float. *)
Definition trunc (x : float) : option Z :=
  match exact x with
  | Some (m, e) =>
      Some (if 0 <=? e then m * 2 ^ e else Z.quot m (2 ^ (- e)))
  | None => None
  end.

(** The integer a float is equal to, if it is one ([1.0 == 1]). *)
Definition integral (x : float) : option Z :=
  match exact x with
  | Some (m, e) =>
      if 0 <=? e then Some (m * 2 ^ e)
      else if Z.rem m (2 ^ (- e)) =? 0 then Some (Z.quot m (2 ^ (- e)))
      else None
  | None => None
  end.

(** [x * 10^k] for a finite [x], rounded to the nearest integer, ties to
    even: the decimal digits [round(x, k)] keeps. *)
Definition scaled_half_even (x : float) (k : Z) : option Z :=
  match exact x with
  | Some (m, e) =>
      let num := m * 10 ^ k * 2 ^ (Z.max e 0) in
      let den := 2 ^ (Z.max (- e) 0) in
      let q := num / den in
      let r2 := 2 * (num mod den) in
      Some (if r2 <? den then q
            else if den <? r2 then q + 1
            else if Z.even q then q else q + 1)
  | None => None
  end.

(** Python's [round(x, ndigits)] on a float, for [0 <= ndigits]: NaN and
    the infinities round to themselves; a finite [x] is rounded on its
    exact value to [ndigits] decimals (ties to even) and the decimal is
    read back as the nearest float. The sign of a zero result is the
    sign of [x]. *)
Definition round_ndigits (x : float) (ndigits : Z) : float :=
  match scaled_half_even x ndigits with
  | Some 0 => if get_sign x then PrimFloat.neg_zero else PrimFloat.zero
  | Some n => of_ratio n (10 ^ ndigits)
  | None => x
  end.

End F64.

(** ** Configuration (section 1 of the script) *)

Record MqttConfig := {
  broker : string;
  port : Z;
  topic : string;
  username : option string;
  password : option string;
  qos : Z
}.

Definition MQTT_CONFIG : MqttConfig := {|
  broker := "192.168.1.100";
  port := 1883;
  topic := "bearing/fault/detection";
  username := Some "algorithm_user";
  password := Some "algorithm_pwd";
  qos := 1
|}.

(** One entry of the fault table is itself a dictionary with the keys
    ["code"], ["desc"] and ["level"]. *)
Definition fault_entry (code desc level : string) : gmap string string :=
  <["code" := code]> (<["desc" := desc]> (<["level" := level]> ∅)).

Definition FAULT_CODE_MAP : gmap Z (gmap string string) :=
  list_to_map [
    (0, fault_entry "B000" "直径1-正常状态" "normal");
    (1, fault_entry "B101" "直径1-内圈故障" "fault");
    (2, fault_entry "B102" "直径1-外圈故障" "fault");
    (3, fault_entry "B103" "直径1-滚珠故障" "fault");
    (4, fault_entry "B201" "直径2-内圈故障" "fault");
    (5, fault_entry "B202" "直径2-外圈故障" "fault");
    (6, fault_entry "B203" "直径2-滚珠故障" "fault");
    (7, fault_entry "B301" "直径3-内圈故障" "fault");
    (8, fault_entry "B302" "直径3-外圈故障" "fault");
    (9, fault_entry "B303" "直径3-滚珠故障" "fault")
  ].

(** ** Tables *)

(** A cell of a table read from CSV, as the Python object a row hands
    out: an int, a float (NaN is the missing value) or a string. *)
Inductive value :=
| VInt (z : Z)
| VFloat (x : float)
| VStr (s : string).

(** A table: its column labels in order and its rows, each row a
    dictionary from column label to cell, as [df.iterrows()] hands them
    out. *)
Record DataFrame := {
  columns : list string;
  rows : list (gmap string value)
}.

(** [pd.DataFrame()]: no columns, no rows. *)
Definition empty_frame : DataFrame := {| columns := []; rows := [] |}.

(** [len(df)] *)
Definition len (df : DataFrame) : nat := length (rows df).

(** [df.empty]: some axis has length zero. *)
Definition is_empty (df : DataFrame) : bool :=
  match columns df, rows df with
  | [], _ | _, [] => true
  | _, _ => false
  end.

(** [name in df.columns] *)
Definition has_column (name : string) (df : DataFrame) : bool :=
  bool_decide (name ∈ columns df).

(** [df[name] = f(row)] for every row: the column is appended when it is
    new and overwritten in place when it exists. *)
Definition assign (name : string) (f : gmap string value → value)
    (df : DataFrame) : DataFrame :=
  {| columns := if has_column name df then columns df
                else columns df ++ [name];
     rows := (λ r, <[name := f r]> r) <$> rows df |}.

(** ** Column labels: [str.isdigit] and [int] *)

Module Unicode.

(** The code points of a text held as UTF-8 bytes; [None] on bytes that
    are no UTF-8 (a Python [str] never holds such). *)
Fixpoint continuation (n : nat) (acc : Z) (s : list ascii)
  : option (Z * list ascii) :=
  match n with
  | O => Some (acc, s)
  | S n =>
      match s with
      | c :: r =>
          let b := Z.of_nat (nat_of_ascii c) in
          if (128 <=? b) && (b <? 192)
          then continuation n (acc * 64 + (b - 128)) r
          else None
      | [] => None
      end
  end.

Fixpoint decode_from (fuel : nat) (s : list ascii) : option (list Z) :=
  match fuel, s with
  | _, [] => Some []
  | O, _ => None
  | S fuel, c :: r =>
      let b := Z.of_nat (nat_of_ascii c) in
      '(cp, rest) ←
        (if b <? 128 then Some (b, r)
         else if b <? 192 then None
         else if b <? 224 then continuation 1 (b - 192) r
         else if b <? 240 then continuation 2 (b - 224) r
         else if b <? 248 then continuation 3 (b - 240) r
         else None);
      cps ← decode_from fuel rest;
      Some (cp :: cps)
  end.

Definition decode (s : string) : option (list Z) :=
  decode_from (String.length s) (list_ascii_of_string s).

(** The decimal digits of Unicode 14.0 (general category Nd), the
    version of Python 3.11: runs of code points given by their first
    code point and their length; within a run the digit values go
    0, 1, ..., 9 over and over. *)
Definition decimal_runs : list (Z * Z) :=
  [(48, 10); (1632, 10); (1776, 10); (1984, 10); (2406, 10);
   (2534, 10); (2662, 10); (2790, 10); (2918, 10); (3046, 10);
   (3174, 10); (3302, 10); (3430, 10); (3558, 10); (3664, 10);
   (3792, 10); (3872, 10); (4160, 10); (4240, 10); (6112, 10);
   (6160, 10); (6470, 10); (6608, 10); (6784, 10); (6800, 10);
   (6992, 10); (7088, 10); (7232, 10); (7248, 10); (42528, 10);
   (43216, 10); (43264, 10); (43472, 10); (43504, 10); (43600, 10);
   (44016, 10); (65296, 10); (66720, 10); (68912, 10); (69734, 10);
   (69872, 10); (69942, 10); (70096, 10); (70384, 10); (70736, 10);
   (70864, 10); (71248, 10); (71360, 10); (71472, 10); (71904, 10);
   (72016, 10); (72784, 10); (73040, 10); (73120, 10); (92768, 10);
   (92864, 10); (93008, 10); (120782, 50); (123200, 10); (123632, 10);
   (125264, 10); (130032, 10)].

(** The other characters [str.isdigit] accepts (numeric type Digit:
    superscripts, subscripts, circled digits and the like), as ranges
    with both ends included. [int] reads none of them. *)
Definition other_digit_ranges : list (Z * Z) :=
  [(178, 179); (185, 185); (4969, 4977); (6618, 6618); (8304, 8304);
   (8308, 8313); (8320, 8329); (9312, 9320); (9332, 9340);
   (9352, 9360); (9450, 9450); (9461, 9469); (9471, 9471);
   (10102, 10110); (10112, 10120); (10122, 10130); (68160, 68163);
   (69216, 69224); (69714, 69722); (127232, 127242)].

(** [unicodedata.decimal(chr(cp))] *)
Definition decimal_value (cp : Z) : option Z :=
  '(start, _) ← List.find (λ run, (fst run <=? cp) && (cp <? fst run + snd run))
                          decimal_runs;
  Some ((cp - start) mod 10).

Definition other_digit (cp : Z) : bool :=
  existsb (λ range, (fst range <=? cp) && (cp <=? snd range)) other_digit_ranges.

Definition is_digit (cp : Z) : bool :=
  match decimal_value cp with
  | Some _ => true
  | None => other_digit cp
  end.

End Unicode.

(** [str.isdigit()]: the text is not empty and every character has the
    numeric type Digit or Decimal. *)
Definition isdigit (s : string) : bool :=
  match Unicode.decode s with
  | Some (cp :: cps) => forallb Unicode.is_digit (cp :: cps)
  | _ => false
  end.

(** [sys.int_info.default_max_str_digits]: longer digit strings make
    [int] raise [ValueError]. *)
Definition max_str_digits : nat := 4300.

(** [int(s)] on a text of which [str.isdigit()] holds: [None] when it
    raises [ValueError], which it does on a digit that is no decimal
    digit and on more than 4300 digits. *)
Definition int_of_digits (s : string) : option Z :=
  cps ← Unicode.decode s;
  if (max_str_digits <? length cps)%nat then None
  else
    ds ← mapM Unicode.decimal_value cps;
    Some (fold_left (λ acc d, 10 * acc + d) ds 0).

(** The filter of line 53: the label is a number between 1 and 6000.
    [None] when the test raises. *)
Definition is_signal_col (col : string) : option bool :=
  if isdigit col then
    n ← int_of_digits col; Some ((1 <=? n) && (n <=? 6000))
  else Some false.

(** The list comprehension of line 53 over the labels in order; [None]
    when the test raises on one of them. *)
Definition signal_cols (df : DataFrame) : option (list string) :=
  tests ← mapM is_signal_col (columns df);
  Some (fst <$> filter (λ ct, snd ct = true) (zip (columns df) tests)).

(** ** Feature derivation *)

(** A cell of an [int64] column. *)
Definition int_cell (c : option value) : option Z :=
  match c with
  | Some (VInt z) => Some z
  | _ => None
  end.

(** A cell of a numeric column as a float; text in a signal column
    makes the reductions raise [TypeError]. *)
Definition signal_cell (c : option value) : option float :=
  match c with
  | Some (VFloat x) => Some x
  | Some (VInt z) => Some (F64.of_Z z)
  | Some (VStr _) => None
  | None => Some PrimFloat.nan
  end.

(** [df[cols]] is a block of [int64] columns: there are columns and
    every cell of them is an integer. With a float column among them,
    or a gap, pandas works on the cells as floats. *)
Definition all_int64 (cols : list string) (df : DataFrame) : bool :=
  match cols with
  | [] => false
  | _ => forallb (λ r, forallb (λ c, bool_decide (is_Some (int_cell (r !! c)))) cols)
                 (rows df)
  end.

(** The signal vector of a row: its cells in the signal columns, as
    integers when the block is [int64] and as floats otherwise. *)
Inductive vector :=
| Ints (l : list Z)
| Floats (l : list float).

Definition signal_vector (ints : bool) (cols : list string)
    (r : gmap string value) : option vector :=
  if ints then Ints <$> mapM (λ c, int_cell (r !! c)) cols
  else Floats <$> mapM (λ c, signal_cell (r !! c)) cols.

Module Stats.

(** pandas reduces with [skipna=True]: NaN cells do not count. *)
Definition valid (v : list float) : list float :=
  filter (λ x, PrimFloat.is_nan x = false) v.

(** Before it sums, pandas puts 0 in the place of the NaN cells. *)
Definition fill (v : list float) : list float :=
  (λ x, if PrimFloat.is_nan x then PrimFloat.zero else x) <$> v.

(** Adding the cells one after the other. *)
Definition add_all (acc : float) (v : list float) : float :=
  fold_left PrimFloat.add v acc.

(** numpy's sum of 8 to 128 contiguous cells: eight running sums over
    the blocks of eight, added two by two, then the cells left over. *)
Fixpoint accumulate (blocks : nat) (r v : list float)
  : list float * list float :=
  match blocks with
  | O => (r, v)
  | S blocks =>
      accumulate blocks (zip_with PrimFloat.add r (take 8 v)) (drop 8 v)
  end.

Definition unrolled_sum (v : list float) : float :=
  let '(r, rest) := accumulate (length v / 8 - 1) (take 8 v) (drop 8 v) in
  match r with
  | [r0; r1; r2; r3; r4; r5; r6; r7] =>
      add_all (PrimFloat.add
                 (PrimFloat.add (PrimFloat.add r0 r1) (PrimFloat.add r2 r3))
                 (PrimFloat.add (PrimFloat.add r4 r5) (PrimFloat.add r6 r7)))
              rest
  | _ => add_all PrimFloat.neg_zero v
  end.

(** numpy's pairwise sum of contiguous cells: fewer than 8 are added one
    after the other, up to 128 with the eight running sums, more are cut
    in two at a multiple of 8. *)
Fixpoint pairwise_sum (fuel : nat) (v : list float) : float :=
  let n := length v in
  if (n <? 8)%nat then add_all PrimFloat.neg_zero v
  else if (n <=? 128)%nat then unrolled_sum v
  else
    match fuel with
    | O => unrolled_sum v
    | S fuel =>
        let n2 := (n / 2 - (n / 2) mod 8)%nat in
        PrimFloat.add (pairwise_sum fuel (take n2 v))
                      (pairwise_sum fuel (drop n2 v))
    end.

(** [values.sum(axis=1)] on the cells of one row, NaN filled with 0.
    numpy starts from -0.0 and adds pairwise along the axis that is
    contiguous in memory only, which the cells of a row are when the
    table has a single row ([contiguous]); otherwise it adds the columns
    one after the other. *)
Definition sum (contiguous : bool) (v : list float) : float :=
  if contiguous
  then PrimFloat.add PrimFloat.neg_zero (pairwise_sum (length v) (fill v))
  else add_all PrimFloat.neg_zero (fill v).

Definition count (v : list float) : nat := length (valid v).

Definition fmax (a b : float) : float := if PrimFloat.ltb a b then b else a.
Definition fmin (a b : float) : float := if PrimFloat.ltb b a then b else a.

(** [mean(axis=1)]: the sum over the count of the valid cells, NaN
    when there is none. *)
Definition mean (contiguous : bool) (v : list float) : float :=
  match count v with
  | O => PrimFloat.nan
  | n => PrimFloat.div (sum contiguous v) (F64.of_Z (Z.of_nat n))
  end.

(** The squared deviations from the mean, 0 in the place of the NaN
    cells. *)
Definition squares (avg : float) (v : list float) : list float :=
  (λ x, if PrimFloat.is_nan x then PrimFloat.zero
        else let d := PrimFloat.sub avg x in PrimFloat.mul d d) <$> v.

(** [std(axis=1)]: pandas' default is the sample standard deviation
    ([ddof=1]): the squared deviations from the mean are summed and
    divided by [count - 1], and the result is NaN when
    [count <= 1]. *)
Definition var (contiguous : bool) (v : list float) : float :=
  let n := count v in
  if (n <=? 1)%nat then PrimFloat.nan
  else
    let avg := PrimFloat.div (sum contiguous v) (F64.of_Z (Z.of_nat n)) in
    PrimFloat.div (sum contiguous (squares avg v))
                  (F64.of_Z (Z.of_nat n - 1)).

Definition std (contiguous : bool) (v : list float) : float :=
  PrimFloat.sqrt (var contiguous v).

(** [max(axis=1)] and [min(axis=1)]: the extreme valid cell, NaN when
    there is none. *)
Definition max (v : list float) : float :=
  match valid v with
  | [] => PrimFloat.nan
  | x :: w => fold_left fmax w x
  end.

Definition min (v : list float) : float :=
  match valid v with
  | [] => PrimFloat.nan
  | x :: w => fold_left fmin w x
  end.

(** The extremes of an [int64] row. *)
Definition imax (l : list Z) : Z :=
  match l with
  | [] => 0
  | x :: w => fold_left Z.max w x
  end.

Definition imin (l : list Z) : Z :=
  match l with
  | [] => 0
  | x :: w => fold_left Z.min w x
  end.

End Stats.

(** [int64] arithmetic wraps around. *)
Definition wrap64 (z : Z) : Z := (z + 2 ^ 63) mod 2 ^ 64 - 2 ^ 63.

(** The five derived features of one signal vector of floats (lines 55
    to 59). *)
Record Features := {
  signal_mean : float;
  signal_std : float;
  signal_max : float;
  signal_min : float;
  signal_peak_to_peak : float
}.

Definition derive_features (contiguous : bool) (v : list float) : Features :=
  let mx := Stats.max v in
  let mn := Stats.min v in
  {| signal_mean := Stats.mean contiguous v;
     signal_std := Stats.std contiguous v;
     signal_max := mx;
     signal_min := mn;
     signal_peak_to_peak := PrimFloat.sub mx mn |}.

(** The five cells written into a row. The mean and the standard
    deviation are floats; the extremes of an [int64] block, and their
    difference, are [int64]. *)
Record Cells := {
  cell_mean : value;
  cell_std : value;
  cell_max : value;
  cell_min : value;
  cell_peak_to_peak : value
}.

(** [df["signal_max"] - df["signal_min"]] on one row. *)
Definition sub_cells (mx mn : value) : value :=
  match mx, mn with
  | VInt a, VInt b => VInt (wrap64 (a - b))
  | VFloat a, VFloat b => VFloat (PrimFloat.sub a b)
  | VInt a, VFloat b => VFloat (PrimFloat.sub (F64.of_Z a) b)
  | VFloat a, VInt b => VFloat (PrimFloat.sub a (F64.of_Z b))
  | _, _ => VFloat PrimFloat.nan
  end.

Definition floats_of (v : vector) : list float :=
  match v with
  | Ints l => F64.of_Z <$> l
  | Floats l => l
  end.

Definition vmean (contiguous : bool) (v : vector) : value :=
  VFloat (Stats.mean contiguous (floats_of v)).
Definition vstd (contiguous : bool) (v : vector) : value :=
  VFloat (Stats.std contiguous (floats_of v)).
Definition vmax (v : vector) : value :=
  match v with
  | Ints l => VInt (Stats.imax l)
  | Floats l => VFloat (Stats.max l)
  end.
Definition vmin (v : vector) : value :=
  match v with
  | Ints l => VInt (Stats.imin l)
  | Floats l => VFloat (Stats.min l)
  end.

Definition derive (contiguous : bool) (v : vector) : Cells :=
  {| cell_mean := vmean contiguous v;
     cell_std := vstd contiguous v;
     cell_max := vmax v;
     cell_min := vmin v;
     cell_peak_to_peak := sub_cells (vmax v) (vmin v) |}.

(** ** Reading and preprocessing: [load_bearing_data] *)

(** [df[name] = df[cols].f(axis=1)]: a row-wise reduction over the signal
    columns stored as a new column; [None] when the reduction raises. *)
Definition reduce (name : string) (cols : list string)
    (f : vector → value) (df : DataFrame) : option DataFrame :=
  let ints := all_int64 cols df in
  rs ← mapM (λ r, v ← signal_vector ints cols r;
                  Some (<[name := f v]> r)) (rows df);
  Some {| columns := if has_column name df then columns df
                     else columns df ++ [name];
          rows := rs |}.

(** The key a cell is looked up under in a dictionary with integer keys:
    an integer, or a float equal to one; anything else (NaN, text) is no
    key of such a dictionary. *)
Definition dict_key (v : value) : option Z :=
  match v with
  | VInt z => Some z
  | VFloat x => F64.integral x
  | VStr _ => None
  end.

(** [FAULT_CODE_MAP.get(x, {}).get(field, dflt)] on the row's label. *)
Definition map_label (field dflt : string) (r : gmap string value) : value :=
  let entry :=
    default ∅ (x ← r !! "label"; k ← dict_key x; FAULT_CODE_MAP !! k) in
  VStr (default dflt (entry !! field)).

(** The classification columns (lines 62 to 70). *)
Definition classify (is_train : bool) (df : DataFrame) : DataFrame :=
  if is_train && has_column "label" df then
    assign "fault_level" (map_label "level" "unknown")
      (assign "fault_desc" (map_label "desc" "未知状态")
        (assign "fault_code" (map_label "code" "UNKNOWN") df))
  else
    assign "fault_level" (λ _, VStr "pending")
      (assign "fault_desc" (λ _, VStr "待算法端预测故障状态")
        (assign "fault_code" (λ _, VStr "PENDING") df)).

(** A cell of the row, [None] when the row has none. *)
Definition cell_or_nan (r : gmap string value) (name : string) : value :=
  default (VFloat PrimFloat.nan) (r !! name).

(** [csv] is what [pd.read_csv] returned, [None] when it raised. Any
    exception inside the [try] block yields the empty table. *)
Definition load_bearing_data (csv : option DataFrame) (is_train : bool)
  : DataFrame :=
  let loaded :=
    df ← csv;
    cols ← signal_cols df;
    let contiguous := (len df =? 1)%nat in
    df ← reduce "signal_mean" cols (vmean contiguous) df;
    df ← reduce "signal_std" cols (vstd contiguous) df;
    df ← reduce "signal_max" cols vmax df;
    df ← reduce "signal_min" cols vmin df;
    let df :=
      assign "signal_peak_to_peak"
        (λ r, sub_cells (cell_or_nan r "signal_max")
                        (cell_or_nan r "signal_min")) df in
    Some (classify is_train df) in
  default empty_frame loaded.

(** ** Decimal text of numbers *)

Module Text.

Local Open Scope char_scope.
Local Open Scope list_scope.
Local Open Scope Z_scope.

Definition char_of_digit (d : Z) : ascii := ascii_of_nat (48 + Z.to_nat d).
Definition digit_of_char (c : ascii) : Z := Z.of_nat (nat_of_ascii c) - 48.

(** The digits of a decimal numeral, most significant first. *)
Fixpoint chars_of_uint (d : Decimal.uint) : list ascii :=
  match d with
  | Decimal.Nil => []
  | Decimal.D0 d => "0" :: chars_of_uint d
  | Decimal.D1 d => "1" :: chars_of_uint d
  | Decimal.D2 d => "2" :: chars_of_uint d
  | Decimal.D3 d => "3" :: chars_of_uint d
  | Decimal.D4 d => "4" :: chars_of_uint d
  | Decimal.D5 d => "5" :: chars_of_uint d
  | Decimal.D6 d => "6" :: chars_of_uint d
  | Decimal.D7 d => "7" :: chars_of_uint d
  | Decimal.D8 d => "8" :: chars_of_uint d
  | Decimal.D9 d => "9" :: chars_of_uint d
  end.

Definition uint_cons (c : ascii) (d : Decimal.uint) : Decimal.uint :=
  match digit_of_char c with
  | 0 => Decimal.D0 d | 1 => Decimal.D1 d | 2 => Decimal.D2 d
  | 3 => Decimal.D3 d | 4 => Decimal.D4 d | 5 => Decimal.D5 d
  | 6 => Decimal.D6 d | 7 => Decimal.D7 d | 8 => Decimal.D8 d
  | _ => Decimal.D9 d
  end.

Definition uint_of_chars (l : list ascii) : Decimal.uint :=
  fold_right uint_cons Decimal.Nil l.

(** The value of a run of decimal digits. *)
Definition nat_of_chars (l : list ascii) : Z :=
  Z.of_N (N.of_uint (uint_of_chars l)).

(** The decimal digits of a natural number; ["0"] for zero. *)
Definition chars_of_nat (n : Z) : list ascii :=
  chars_of_uint (N.to_uint (Z.to_N n)).

(** [repr] of a Python int. *)
Definition int_repr (z : Z) : list ascii :=
  if z <? 0 then "-" :: chars_of_nat (- z) else chars_of_nat z.

(** The float nearest to the decimal [c * 10^e], which is what
    [float(text)] returns on a decimal literal. *)
Definition of_decimal (c e : Z) : float :=
  if 0 <=? e then F64.of_Z (c * 10 ^ e) else F64.of_ratio c (10 ^ (- e)).

(** *** [float.__repr__]: the shortest digits that read back *)

(** Smallest [j >= 1] with [num * 10^j >= den], for [0 < num < den]. *)
Fixpoint first_scale (fuel : nat) (j num den : Z) : Z :=
  match fuel with
  | O => j
  | S fuel =>
      if den <=? num * 10 then j else first_scale fuel (j + 1) (num * 10) den
  end.

(** The position of the decimal point of [num / den > 0]:
    [10^(decpt-1) <= num/den < 10^decpt]. *)
Definition decimal_point (num den : Z) : Z :=
  if den <=? num then Z.of_nat (length (chars_of_nat (num / den)))
  else 1 - first_scale 400 1 num den.

(** The [k]-digit decimals next to [num/den] that read back as [x]: the
    closest one of them, if any. The result is the digit value and the
    decimal point. *)
Definition candidate (x : float) (num den decpt k : Z) (force : bool)
  : option (Z * Z) :=
  let s := k - decpt in
  let n := if 0 <=? s then num * 10 ^ s else num in
  let d := if 0 <=? s then den else den * 10 ^ (- s) in
  let lo := n / d in
  let r2 := 2 * (n mod d) in
  let ok c := PrimFloat.eqb (of_decimal c (decpt - k)) x in
  let near := if r2 <? d then lo
              else if d <? r2 then lo + 1
              else if Z.even lo then lo else lo + 1 in
  let far := if near =? lo then lo + 1 else lo in
  let pick c := if c =? 10 ^ k then Some (1, decpt + 1) else Some (c, decpt) in
  if (r2 =? 0) || force then pick near
  else if ok near then pick near
  else if ok far then pick far
  else None.

Fixpoint shortest (fuel : nat) (x : float) (num den decpt k : Z)
  : Z * Z :=
  match fuel with
  | O => default (0, 0) (candidate x num den decpt k true)
  | S fuel =>
      match candidate x num den decpt k false with
      | Some r => r
      | None => shortest fuel x num den decpt (k + 1)
      end
  end.

(** The digits and decimal point of a finite non-zero float's [repr]:
    at most 17 digits are ever needed. *)
Definition repr_digits (x : float) : list ascii * Z :=
  let a := PrimFloat.abs x in
  match F64.exact a with
  | Some (m, e) =>
      let num := m * 2 ^ (Z.max e 0) in
      let den := 2 ^ (Z.max (- e) 0) in
      let decpt := decimal_point num den in
      let '(c, p) := shortest 16 a num den decpt 1 in
      (chars_of_nat c, p)
  | None => ([], 0)
  end.

Definition zeros (n : Z) : list ascii := repeat "0" (Z.to_nat n).

(** The exponent of the scientific form: a sign and at least two
    digits. *)
Definition exponent_text (e : Z) : list ascii :=
  let ds := chars_of_nat (Z.abs e) in
  (if e <? 0 then "-" else "+") ::
  (if (length ds <? 2)%nat then "0" :: ds else ds).

(** [repr(x)] for a finite float: fixed notation when
    [-4 < decpt <= 16], scientific notation otherwise. *)
Definition float_repr (x : float) : list ascii :=
  let sign := if get_sign x then ["-"] else [] in
  if PrimFloat.is_zero x then sign ++ ["0"; "."; "0"]
  else
    let '(ds, decpt) := repr_digits x in
    let k := Z.of_nat (length ds) in
    sign ++
    if (decpt <=? -4) || (16 <? decpt) then
      match ds with
      | [] => []
      | d :: rest =>
          d :: (match rest with [] => [] | _ => "." :: rest end)
            ++ "e" :: exponent_text (decpt - 1)
      end
    else if decpt <=? 0 then "0" :: "." :: zeros (- decpt) ++ ds
    else if decpt <? k then
      take (Z.to_nat decpt) ds ++ "." :: drop (Z.to_nat decpt) ds
    else ds ++ zeros (decpt - k) ++ ["."; "0"].

End Text.

(** ** JSON text *)

(** What Python's [json] module reads and writes: [None], booleans,
    ints, floats, strings, lists and dictionaries. A dictionary is kept
    as its items in insertion order. *)
#[local] Set Warnings "-register-all".

Inductive json :=
| JNull
| JBool (b : bool)
| JInt (z : Z)
| JFloat (x : float)
| JStr (s : string)
| JList (l : list json)
| JDict (items : list (string * json)).

Module Json.

Local Open Scope char_scope.
Local Open Scope list_scope.
Local Open Scope Z_scope.

Definition dquote : ascii := "034".
Definition backslash : ascii := "\".

Definition code (c : ascii) : Z := Z.of_nat (nat_of_ascii c).

Definition hex_char (d : Z) : ascii :=
  if d <? 10 then ascii_of_nat (48 + Z.to_nat d)
  else ascii_of_nat (87 + Z.to_nat d).

(** *** Writing: [json.dumps(obj, ensure_ascii=False)] *)

(** Only the quote, the backslash and the control characters below
    0x20 are escaped; every other byte, so all non-ASCII text, is
    written as it is. *)
Definition escape_char (c : ascii) : list ascii :=
  if Ascii.eqb c dquote then [backslash; dquote]
  else if Ascii.eqb c backslash then [backslash; backslash]
  else if Ascii.eqb c "010" then [backslash; "n"]
  else if Ascii.eqb c "013" then [backslash; "r"]
  else if Ascii.eqb c "009" then [backslash; "t"]
  else if Ascii.eqb c "008" then [backslash; "b"]
  else if Ascii.eqb c "012" then [backslash; "f"]
  else if code c <? 32 then
    [backslash; "u"; "0"; "0"; hex_char (code c / 16); hex_char (code c mod 16)]
  else [c].

Definition escape (s : list ascii) : list ascii := concat (map escape_char s).

Definition encode_string (s : string) : list ascii :=
  dquote :: escape (list_ascii_of_string s) ++ [dquote].

(** Floats are written with [float.__repr__], except NaN and the
    infinities ([allow_nan=True]). *)
Definition encode_float (x : float) : list ascii :=
  if PrimFloat.is_nan x then ["N"; "a"; "N"]
  else if PrimFloat.eqb x PrimFloat.infinity then
    list_ascii_of_string "Infinity"
  else if PrimFloat.eqb x PrimFloat.neg_infinity then
    list_ascii_of_string "-Infinity"
  else Text.float_repr x.

(** The items of a list, and of a dictionary, separated by a comma and a
    space; [enc] writes one value. *)
Fixpoint encode_elements (enc : json → list ascii) (l : list json)
  : list ascii :=
  match l with
  | [] => []
  | x :: l' =>
      enc x ++ match l' with
               | [] => []
               | _ => "," :: " " :: encode_elements enc l'
               end
  end.

Fixpoint encode_members (enc : json → list ascii) (l : list (string * json))
  : list ascii :=
  match l with
  | [] => []
  | (k, v) :: l' =>
      encode_string k ++ ":" :: " " :: enc v
        ++ match l' with
           | [] => []
           | _ => "," :: " " :: encode_members enc l'
           end
  end.

Fixpoint encode (j : json) : list ascii :=
  match j with
  | JNull => list_ascii_of_string "null"
  | JBool true => list_ascii_of_string "true"
  | JBool false => list_ascii_of_string "false"
  | JInt z => Text.int_repr z
  | JFloat x => encode_float x
  | JStr s => encode_string s
  | JList l => "[" :: encode_elements encode l ++ ["]"]
  | JDict items => "{" :: encode_members encode items ++ ["}"]
  end.

Definition dumps (j : json) : string := string_of_list_ascii (encode j).

(** *** Reading: [json.loads] *)

Definition is_ws (c : ascii) : bool :=
  Ascii.eqb c " " || Ascii.eqb c "009" || Ascii.eqb c "010" || Ascii.eqb c "013".

Fixpoint skip_ws (s : list ascii) : list ascii :=
  match s with
  | c :: r => if is_ws c then skip_ws r else s
  | [] => []
  end.

Definition hex_value (c : ascii) : option Z :=
  let n := code c in
  if (48 <=? n) && (n <=? 57) then Some (n - 48)
  else if (97 <=? n) && (n <=? 102) then Some (n - 87)
  else if (65 <=? n) && (n <=? 70) then Some (n - 55)
  else None.

Definition hex4 (a b c d : ascii) : option Z :=
  x ← hex_value a; y ← hex_value b; z ← hex_value c; w ← hex_value d;
  Some (((x * 16 + y) * 16 + z) * 16 + w).

Definition byte (n : Z) : ascii := ascii_of_nat (Z.to_nat n).

(** The UTF-8 bytes of a code point. *)
Definition utf8 (cp : Z) : list ascii :=
  if cp <? 128 then [byte cp]
  else if cp <? 2048 then [byte (192 + cp / 64); byte (128 + cp mod 64)]
  else if cp <? 65536 then
    [byte (224 + cp / 4096); byte (128 + cp / 64 mod 64); byte (128 + cp mod 64)]
  else
    [byte (240 + cp / 262144); byte (128 + cp / 4096 mod 64);
     byte (128 + cp / 64 mod 64); byte (128 + cp mod 64)].

Definition unescape (e : ascii) : option ascii :=
  if Ascii.eqb e dquote then Some dquote
  else if Ascii.eqb e backslash then Some backslash
  else if Ascii.eqb e "/" then Some "/"
  else if Ascii.eqb e "b" then Some "008"
  else if Ascii.eqb e "f" then Some "012"
  else if Ascii.eqb e "n" then Some "010"
  else if Ascii.eqb e "r" then Some "013"
  else if Ascii.eqb e "t" then Some "009"
  else None.

(** The body of a string literal, from just after its opening quote to
    its closing quote (strict mode: a raw control character is an
    error). A [\uXXXX] escape yields the UTF-8 bytes of its code point,
    a surrogate pair those of the character it encodes. *)
Fixpoint scan_string (s : list ascii) : option (list ascii * list ascii) :=
  match s with
  | [] => None
  | c :: r =>
      if Ascii.eqb c dquote then Some ([], r)
      else if Ascii.eqb c backslash then
        match r with
        | [] => None
        | e :: r1 =>
            if Ascii.eqb e "u" then
              match r1 with
              | a :: b :: c1 :: d :: r2 =>
                  hi ← hex4 a b c1 d;
                  let plain :=
                    '(t, r3) ← scan_string r2; Some (utf8 hi ++ t, r3) in
                  if (55296 <=? hi) && (hi <=? 56319) then
                    match r2 with
                    | b1 :: u1 :: a' :: b' :: c' :: d' :: r4 =>
                        if Ascii.eqb b1 backslash && Ascii.eqb u1 "u" then
                          match hex4 a' b' c' d' with
                          | Some lo =>
                              if (56320 <=? lo) && (lo <=? 57343) then
                                '(t, r5) ← scan_string r4;
                                Some (utf8 (65536 + (hi - 55296) * 1024
                                            + (lo - 56320)) ++ t, r5)
                              else plain
                          | None => plain
                          end
                        else plain
                    | _ => plain
                    end
                  else plain
              | _ => None
              end
            else
              ch ← unescape e;
              '(t, r2) ← scan_string r1; Some (ch :: t, r2)
        end
      else if code c <? 32 then None
      else '(t, r1) ← scan_string r; Some (c :: t, r1)
  end.

Definition is_digit (c : ascii) : bool := (48 <=? code c) && (code c <=? 57).

(** The characters a number literal is made of. *)
Definition number_char (c : ascii) : bool :=
  is_digit c || Ascii.eqb c "." || Ascii.eqb c "e" || Ascii.eqb c "E"
  || Ascii.eqb c "+" || Ascii.eqb c "-".

Fixpoint span (p : ascii → bool) (s : list ascii) : list ascii * list ascii :=
  match s with
  | c :: r => if p c then let '(a, b) := span p r in (c :: a, b) else ([], s)
  | [] => ([], [])
  end.

(** The integer part of a number: [0], or a non-zero digit and more
    digits. *)
Definition int_part (s : list ascii) : option (list ascii * list ascii) :=
  match s with
  | c :: r =>
      if Ascii.eqb c "0" then Some ([c], r)
      else if is_digit c then let '(ds, r') := span is_digit r in Some (c :: ds, r')
      else None
  | [] => None
  end.

(** The fraction: a dot and at least one digit, or nothing. *)
Definition frac_part (s : list ascii) : option (list ascii) * list ascii :=
  match s with
  | "." :: r =>
      match span is_digit r with
      | ([], _) => (None, s)
      | (ds, r') => (Some ds, r')
      end
  | _ => (None, s)
  end.

(** The exponent: [e] or [E], an optional sign and at least one digit,
    or nothing. *)
Definition exp_part (s : list ascii) : option Z * list ascii :=
  match s with
  | c :: r =>
      if Ascii.eqb c "e" || Ascii.eqb c "E" then
        let '(neg, r1) :=
          match r with
          | "-" :: r1 => (true, r1)
          | "+" :: r1 => (false, r1)
          | _ => (false, r)
          end in
        match span is_digit r1 with
        | ([], _) => (None, s)
        | (ds, r2) =>
            (Some (if neg then - Text.nat_of_chars ds else Text.nat_of_chars ds), r2)
        end
      else (None, s)
  | [] => (None, s)
  end.

(** The number at the head of [t]: an optional minus sign, the integer
    part, an optional fraction and an optional exponent, each taken as
    long as possible. It is an int when it has neither fraction nor
    exponent, a float otherwise. *)
Definition match_number (t : list ascii) : option (json * list ascii) :=
  let '(neg, t1) := match t with "-" :: t1 => (true, t1) | _ => (false, t) end in
  '(ip, t2) ← int_part t1;
  let '(fr, t3) := frac_part t2 in
  let '(ex, t4) := exp_part t3 in
  match fr, ex with
  | None, None =>
      let n := Text.nat_of_chars ip in
      Some (JInt (if neg then - n else n), t4)
  | _, _ =>
      let fd := default [] fr in
      let x := Text.of_decimal (Text.nat_of_chars (ip ++ fd))
                 (default 0 ex - Z.of_nat (length fd)) in
      Some (JFloat (if neg then PrimFloat.opp x else x), t4)
  end.

(** A number literal can only extend over number characters, so it is
    matched inside the longest run of them. *)
Definition scan_number (s : list ascii) : option (json * list ascii) :=
  let '(t, rest) := span number_char s in
  '(j, t') ← match_number t;
  Some (j, t' ++ rest).

Fixpoint strip_prefix (p s : list ascii) : option (list ascii) :=
  match p, s with
  | [], _ => Some s
  | a :: p', b :: s' => if Ascii.eqb a b then strip_prefix p' s' else None
  | _ :: _, [] => None
  end.

Definition keyword (w : string) (j : json) (s : list ascii)
  : option (json * list ascii) :=
  r ← strip_prefix (list_ascii_of_string w) s; Some (j, r).

(** One value at the head of [s]; [fuel] bounds the nesting and the
    number of items, the length of the text is always enough. *)
Fixpoint parse_value (fuel : nat) (s : list ascii) {struct fuel}
  : option (json * list ascii) :=
  match fuel with
  | O => None
  | S fuel =>
      match s with
      | [] => None
      | c :: r =>
          if Ascii.eqb c dquote then
            '(t, r1) ← scan_string r; Some (JStr (string_of_list_ascii t), r1)
          else if Ascii.eqb c "{" then
            match skip_ws r with
            | c1 :: r1 =>
                if Ascii.eqb c1 "}" then Some (JDict [], r1)
                else if Ascii.eqb c1 dquote then
                  '(items, r2) ← parse_members fuel r1; Some (JDict items, r2)
                else None
            | [] => None
            end
          else if Ascii.eqb c "[" then
            match skip_ws r with
            | c1 :: r1 =>
                if Ascii.eqb c1 "]" then Some (JList [], r1)
                else '(l, r2) ← parse_elements fuel (c1 :: r1); Some (JList l, r2)
            | [] => None
            end
          else
            match keyword "null" JNull s with
            | Some res => Some res
            | None =>
            match keyword "true" (JBool true) s with
            | Some res => Some res
            | None =>
            match keyword "false" (JBool false) s with
            | Some res => Some res
            | None =>
            match scan_number s with
            | Some res => Some res
            | None =>
            match keyword "NaN" (JFloat PrimFloat.nan) s with
            | Some res => Some res
            | None =>
            match keyword "Infinity" (JFloat PrimFloat.infinity) s with
            | Some res => Some res
            | None => keyword "-Infinity" (JFloat PrimFloat.neg_infinity) s
            end end end end end end
      end
  end
with parse_members (fuel : nat) (s : list ascii) {struct fuel}
  : option (list (string * json) * list ascii) :=
  match fuel with
  | O => None
  | S fuel =>
      '(k, r) ← scan_string s;
      match skip_ws r with
      | c :: r1 =>
          if Ascii.eqb c ":" then
            '(v, r2) ← parse_value fuel (skip_ws r1);
            let item := (string_of_list_ascii k, v) in
            match skip_ws r2 with
            | c2 :: r3 =>
                if Ascii.eqb c2 "}" then Some ([item], r3)
                else if Ascii.eqb c2 "," then
                  match skip_ws r3 with
                  | c3 :: r4 =>
                      if Ascii.eqb c3 dquote then
                        '(items, r5) ← parse_members fuel r4;
                        Some (item :: items, r5)
                      else None
                  | [] => None
                  end
                else None
            | [] => None
            end
          else None
      | [] => None
      end
  end
with parse_elements (fuel : nat) (s : list ascii) {struct fuel}
  : option (list json * list ascii) :=
  match fuel with
  | O => None
  | S fuel =>
      '(v, r) ← parse_value fuel s;
      match skip_ws r with
      | c :: r1 =>
          if Ascii.eqb c "]" then Some ([v], r1)
          else if Ascii.eqb c "," then
            '(l, r2) ← parse_elements fuel (skip_ws r1); Some (v :: l, r2)
          else None
      | [] => None
      end
  end.

(** [json.loads(text)]: one value, surrounded by optional white space
    and nothing else. *)
Definition loads (text : string) : option json :=
  let s := list_ascii_of_string text in
  '(j, r) ← parse_value (S (length s)) (skip_ws s);
  match skip_ws r with
  | [] => Some j
  | _ => None
  end.

(** A dictionary's value under a key: the last item with that key. *)
Definition get (k : string) (j : json) : option json :=
  match j with
  | JDict items =>
      snd <$> last (filter (λ kv, fst kv = k) items)
  | _ => None
  end.

End Json.

(** ** Python conversions on table cells *)

Inductive exn :=
| KeyError (key : string)
| ValueError
| OverflowError
| TypeError
| ZeroDivisionError
| OSError.

Inductive outcome (A : Type) :=
| Return (a : A)
| Raise (e : exn).
Arguments Return {A} a.
Arguments Raise {A} e.

Module Conv.

Local Open Scope char_scope.
Local Open Scope list_scope.
Local Open Scope Z_scope.

(** ASCII white space as [str.strip] sees it. *)
Definition is_space (c : ascii) : bool :=
  let n := Json.code c in
  ((9 <=? n) && (n <=? 13)) || ((28 <=? n) && (n <=? 32)).

Fixpoint drop_while_space (s : list ascii) : list ascii :=
  match s with
  | c :: r => if is_space c then drop_while_space r else s
  | [] => []
  end.

Definition strip (s : list ascii) : list ascii :=
  rev (drop_while_space (rev (drop_while_space s))).

Definition split_sign (s : list ascii) : bool * list ascii :=
  match s with
  | "-" :: r => (true, r)
  | "+" :: r => (false, r)
  | _ => (false, s)
  end.

(** Digits with single underscores between them, as [int] accepts;
    the result is the digits alone. *)
Fixpoint grouped_digits (s : list ascii) : option (list ascii) :=
  match s with
  | [] => None
  | c :: r =>
      if Json.is_digit c then
        match r with
        | [] => Some [c]
        | "_" :: r' => ds ← grouped_digits r'; Some (c :: ds)
        | _ => ds ← grouped_digits r; Some (c :: ds)
        end
      else None
  end.

(** [int(text)] on ASCII text: white space around, a sign, decimal
    digits. *)
Definition int_of_text (s : string) : option Z :=
  let '(neg, r) := split_sign (strip (list_ascii_of_string s)) in
  ds ← grouped_digits r;
  let n := Text.nat_of_chars ds in
  Some (if neg then - n else n).

Definition lower (c : ascii) : ascii :=
  let n := Json.code c in
  if (65 <=? n) && (n <=? 90) then ascii_of_nat (Z.to_nat (n + 32)) else c.

(** [float(text)] on ASCII text: white space around, a sign, then
    [inf], [infinity], [nan] in any case, or a decimal literal with at
    least one digit before or after the dot and an optional exponent.
    (Underscores between digits are not read here.) *)
Definition float_of_text (s : string) : option float :=
  let '(neg, r) := split_sign (strip (list_ascii_of_string s)) in
  let word := string_of_list_ascii (map lower r) in
  let signed x := if neg then PrimFloat.opp x else x in
  if (word =? "inf")%string || (word =? "infinity")%string then
    Some (signed PrimFloat.infinity)
  else if (word =? "nan")%string then Some PrimFloat.nan
  else
    let '(ip, r1) := Json.span Json.is_digit r in
    let '(fd, r2) :=
      match r1 with
      | "." :: r2 => Json.span Json.is_digit r2
      | _ => ([], r1)
      end in
    match ip ++ fd with
    | [] => None
    | ds =>
        match r2 with
        | [] => Some (signed (Text.of_decimal (Text.nat_of_chars ds)
                                (- Z.of_nat (length fd))))
        | _ =>
            match Json.exp_part r2 with
            | (Some e, []) =>
                Some (signed (Text.of_decimal (Text.nat_of_chars ds)
                                (e - Z.of_nat (length fd))))
            | _ => None
            end
        end
    end.

(** [int(cell)] *)
Definition py_int (v : value) : outcome Z :=
  match v with
  | VInt z => Return z
  | VFloat x =>
      if PrimFloat.is_nan x then Raise ValueError
      else match F64.trunc x with
           | Some z => Return z
           | None => Raise OverflowError
           end
  | VStr s =>
      match int_of_text s with
      | Some z => Return z
      | None => Raise ValueError
      end
  end.

(** [float(cell)] *)
Definition py_float (v : value) : outcome float :=
  match v with
  | VInt z => Return (F64.of_Z z)
  | VFloat x => Return x
  | VStr s =>
      match float_of_text s with
      | Some x => Return x
      | None => Raise ValueError
      end
  end.

End Conv.

(** ** The outside world and the trace of a run *)

(** A line written by [print]. *)
Inductive line :=
| LoadOk (path : string) (samples cols : nat)
| LoadFailed
| ConnectOk (host : string)
| ConnectFailed (cause : string)
| MessageSent (mid : Z)
| SampleSent (id code : value)
| SampleFailed (id : value) (rc : Z)
| StatsHeader
| StatsTotal (n : nat)
| StatsSent (n : nat)
| StatsFailed (n : nat)
| StatsRate (percent : float)
| SendError (e : exn)
| StartSending.

(** What the script does to the outside, in order. *)
Inductive event :=
| NewClient (client_id : string)
| UsernamePwSet (user pwd : string)
| Connect (host : string) (port keepalive : Z)
| LoopStart
| LoopStop
| Disconnect
| Sleep (milliseconds : Z)
| Publish (topic payload : string) (qos : Z)
| Print (l : line).

(** The answers of the outside world during one run. *)
Record World := {
  (** [pd.read_csv(path)]; [None] when it raises *)
  read_csv : string → option DataFrame;
  (** [int(time.time())] when the client is created *)
  start_time : Z;
  (** [int(time.time())] while the [k]-th row's message is built *)
  row_time : nat → Z;
  (** [time.strftime(..., time.localtime())] for the [k]-th row *)
  row_time_text : nat → string;
  (** [client.connect] raises (host unreachable, refused, timed out) *)
  connect_raises : bool;
  (** the return code of the broker's CONNACK, when one arrives; the
      client then calls its connect callback on its network thread *)
  connack : option Z;
  (** [result.rc] of the [k]-th call of [client.publish] *)
  publish_rc : nat → string → Z
}.

(** A computation that prints and calls the client, and returns or
    raises: its outcome and the events it produced. *)
Definition Py (A : Type) : Type := outcome A * list event.

Definition ret {A} (a : A) : Py A := (Return a, []).
Definition raise {A} (e : exn) : Py A := (Raise e, []).
Definition emit (ev : event) : Py unit := (Return tt, [ev]).
Definition lift {A} (o : outcome A) : Py A := (o, []).

Definition bind {A B} (m : Py A) (k : A → Py B) : Py B :=
  match m with
  | (Return a, t) => let '(o, t') := k a in (o, t ++ t')
  | (Raise e, t) => (Raise e, t)
  end.

(** [try: m except Exception as e: h(e)] *)
Definition try_except (m : Py unit) (h : exn → Py unit) : Py unit :=
  match m with
  | (Return a, t) => (Return a, t)
  | (Raise e, t) => let '(o, t') := h e in (o, t ++ t')
  end.

Declare Scope py_scope.
Delimit Scope py_scope with py.
Notation "x <- m ;; k" := (bind m (λ x, k))
  (at level 100, m at next level, right associativity) : py_scope.
Notation "m ;; k" := (bind m (λ _, k))
  (at level 100, right associativity) : py_scope.
Local Open Scope py_scope.

(** [row[key]] *)
Definition getitem (row : gmap string value) (key : string) : Py value :=
  match row !! key with
  | Some v => ret v
  | None => raise (KeyError key)
  end.

(** ** MQTT callbacks *)

Definition rc_msg : gmap Z string :=
  list_to_map [
    (0, "连接成功");
    (1, "协议版本错误");
    (2, "客户端ID非法");
    (3, "服务器不可用");
    (4, "用户名/密码错误");
    (5, "未授权")
  ].

(** The body of the connect callback only prints: the outcome of the
    connection is not stored or returned anywhere. *)
Definition on_mqtt_connect (rc : Z) : line :=
  if rc =? 0 then ConnectOk (broker MQTT_CONFIG)
  else ConnectFailed
         (default ("未知错误码" +:+ string_of_list_ascii (Text.int_repr rc))
                  (rc_msg !! rc)).

Definition on_mqtt_publish (mid : Z) : line := MessageSent mid.

(** The parameters of the two callbacks as they are written:
    [(client, userdata, flags, rc)] and [(client, userdata, mid)]. *)
Definition on_mqtt_connect_params : nat := 4.
Definition on_mqtt_publish_params : nat := 3.

(** The client is created with [CallbackAPIVersion.VERSION2] (line
    108): it calls its connect callback with the five arguments
    [(client, userdata, flags, reason_code, properties)] and its publish
    callback with the five arguments
    [(client, userdata, mid, reason_code, properties)]. *)
Definition callback_arguments : nat := 5.

(** A call of a Python function with a number of positional arguments
    that is not the number of its parameters raises [TypeError] before
    the body runs. *)
Definition call_with (params given : nat) (body : Py unit) : Py unit :=
  if (params =? given)%nat then body else raise TypeError.

(** What runs on the client's network thread: what it prints is part of
    the trace; an exception ends that thread and never reaches the
    session. *)
Definition on_network_thread (m : Py unit) : Py unit := (Return tt, snd m).

(** The client's call of [on_mqtt_connect] when the broker's answer
    arrives. *)
Definition connect_callback (rc : Z) : Py unit :=
  on_network_thread
    (call_with on_mqtt_connect_params callback_arguments
               (emit (Print (on_mqtt_connect rc)))).

(** ** The message envelope *)

Record Envelope := {
  sample_id : Z;
  fault_code : value;
  fault_desc : value;
  fault_level : value;
  signal_features : Features;
  send_timestamp : Z;
  send_time : string
}.

(** [round(float(row[key]), 6)] *)
Definition rounded_feature (row : gmap string value) (key : string) : Py float :=
  v <- getitem row key ;;
  x <- lift (Conv.py_float v) ;;
  ret (F64.round_ndigits x 6).

(** The dictionary [mqtt_msg] of lines 127 to 142, its entries evaluated
    in the order they are written. *)
Definition build_message (w : World) (k : nat) (row : gmap string value)
  : Py Envelope :=
  id <- getitem row "id" ;;
  sid <- lift (Conv.py_int id) ;;
  code <- getitem row "fault_code" ;;
  desc <- getitem row "fault_desc" ;;
  level <- getitem row "fault_level" ;;
  mean <- rounded_feature row "signal_mean" ;;
  std <- rounded_feature row "signal_std" ;;
  mx <- rounded_feature row "signal_max" ;;
  mn <- rounded_feature row "signal_min" ;;
  ptp <- rounded_feature row "signal_peak_to_peak" ;;
  ret {| sample_id := sid;
         fault_code := code; fault_desc := desc; fault_level := level;
         signal_features :=
           {| signal_mean := mean; signal_std := std; signal_max := mx;
              signal_min := mn; signal_peak_to_peak := ptp |};
         send_timestamp := row_time w k;
         send_time := row_time_text w k |}.

(** A cell as a JSON value. The rows of a table that holds text columns,
    as every loaded table does, are handed out with Python ints, floats
    and strings as cells, all of which [json.dumps] writes. *)
Definition json_of_value (v : value) : json :=
  match v with
  | VStr s => JStr s
  | VFloat x => JFloat x
  | VInt z => JInt z
  end.

Definition json_of_features (f : Features) : json :=
  JDict [("mean", JFloat (signal_mean f));
         ("std", JFloat (signal_std f));
         ("max", JFloat (signal_max f));
         ("min", JFloat (signal_min f));
         ("peak_to_peak", JFloat (signal_peak_to_peak f))].

(** The dictionary [mqtt_msg] as the JSON value it is. *)
Definition json_of_envelope (m : Envelope) : json :=
  JDict [("sample_id", JInt (sample_id m));
         ("fault_code", json_of_value (fault_code m));
         ("fault_desc", json_of_value (fault_desc m));
         ("fault_level", json_of_value (fault_level m));
         ("signal_features", json_of_features (signal_features m));
         ("send_timestamp", JInt (send_timestamp m));
         ("send_time", JStr (send_time m))].

(** [json.dumps(mqtt_msg, ensure_ascii=False)] *)
Definition json_dumps (m : Envelope) : Py string :=
  ret (Json.dumps (json_of_envelope m)).

(** ** The publish session: [send_bearing_data_to_algorithm] *)

(** The payload of the [k]-th row: the envelope, written as JSON. *)
Definition message_json (w : World) (k : nat) (row : gmap string value)
  : Py string :=
  mqtt_msg <- build_message w k row ;;
  json_dumps mqtt_msg.

(** The body of the [for] loop for the rows [rs], the first of which is
    row number [k]. It returns the two counters. *)
Fixpoint publish_rows (w : World) (k : nat) (rs : list (gmap string value))
    (send_count fail_count : nat) : Py (nat * nat) :=
  match rs with
  | [] => ret (send_count, fail_count)
  | row :: rest =>
      msg_json <- message_json w k row ;;
      emit (Publish (topic MQTT_CONFIG) msg_json (qos MQTT_CONFIG)) ;;
      let rc := publish_rc w k msg_json in
      counts <-
        (if rc =? 0 then
           id <- getitem row "id" ;;
           code <- getitem row "fault_code" ;;
           emit (Print (SampleSent id code)) ;;
           ret (S send_count, fail_count)
         else
           id <- getitem row "id" ;;
           emit (Print (SampleFailed id rc)) ;;
           ret (send_count, S fail_count)) ;;
      emit (Sleep 200) ;;
      publish_rows w (S k) rest (fst counts) (snd counts)
  end.

(** [round(send_count / total * 100, 2)]; the division raises when
    [total] is zero. *)
Definition success_percent (send_count total : nat) : Py float :=
  match total with
  | O => raise ZeroDivisionError
  | _ =>
      ret (F64.round_ndigits
             (PrimFloat.mul (F64.of_ratio (Z.of_nat send_count) (Z.of_nat total))
                            100%float) 2)
  end.

(** A configured credential counts when it is neither [None] nor empty. *)
Definition truthy (s : option string) : bool :=
  match s with
  | Some EmptyString | None => false
  | Some _ => true
  end.

(** The statements inside the [try] block (lines 118 to 175). The
    broker's answer to the connection request makes the client call its
    connect callback on the network thread; the call is placed in the
    settle delay that follows [loop_start]. *)
Definition session_body (w : World) (df : DataFrame) : Py unit :=
  emit (Connect (broker MQTT_CONFIG) (port MQTT_CONFIG) 60) ;;
  (if connect_raises w then raise OSError else ret tt) ;;
  emit LoopStart ;;
  match connack w with
  | Some rc => connect_callback rc
  | None => ret tt
  end ;;
  emit (Sleep 1000) ;;
  counts <- publish_rows w 0 (rows df) 0 0 ;;
  emit (Sleep 2000) ;;
  emit LoopStop ;;
  emit Disconnect ;;
  emit (Print StatsHeader) ;;
  emit (Print (StatsTotal (len df))) ;;
  emit (Print (StatsSent (fst counts))) ;;
  emit (Print (StatsFailed (snd counts))) ;;
  percent <- success_percent (fst counts) (len df) ;;
  emit (Print (StatsRate percent)).

(** The whole function: everything it prints and every call it makes on
    the client. *)
Definition send_bearing_data_to_algorithm (w : World) (df : DataFrame)
  : list event :=
  snd (emit (NewClient ("bearing_sender_"
                        +:+ string_of_list_ascii (Text.int_repr (start_time w)))) ;;
       match username MQTT_CONFIG, password MQTT_CONFIG with
       | Some u, Some p =>
           if truthy (Some u) && truthy (Some p) then emit (UsernamePwSet u p)
           else ret tt
       | _, _ => ret tt
       end ;;
       try_except (session_body w df) (λ e, emit (Print (SendError e)))).

(** ** The main flow *)

Definition train_data_path : string := "D:\X program\training_data\train.csv".
Definition test_data_path : string := "D:\X program\training_data\test_data.csv".

(** Whether a statement of the [try] block raises once the file is
    read: the test of line 53 on a label, or a reduction of lines 55 to
    58 on text in a signal column. *)
Definition load_raises (df : DataFrame) : bool :=
  match signal_cols df with
  | Some cols =>
      negb (forallb (λ r, bool_decide
                            (is_Some (signal_vector (all_int64 cols df) cols r)))
                    (rows df))
  | None => true
  end.

(** The lines [load_bearing_data] prints: what it read, once [read_csv]
    has returned, and the failure, when [read_csv] or a later statement
    of the [try] block raised. *)
Definition load_lines (path : string) (csv : option DataFrame) : list line :=
  match csv with
  | Some df =>
      LoadOk path (len df) (length (columns df))
      :: if load_raises df then [LoadFailed] else []
  | None => [LoadFailed]
  end.

(** The training table is loaded and, unless it is empty, sent. *)
Definition main (w : World) : list event :=
  let csv := read_csv w train_data_path in
  let train_df := load_bearing_data csv true in
  (Print <$> load_lines train_data_path csv)
  ++ if is_empty train_df then []
     else Print StartSending :: send_bearing_data_to_algorithm w train_df.

(** ** Reading a trace *)

(** The payloads handed to [client.publish], in order. *)
Definition published (t : list event) : list string :=
  omap (λ ev, match ev with Publish _ p _ => Some p | _ => None end) t.

(** The per-row result lines, in order: [true] for a success line. *)
Definition recorded (t : list event) : list bool :=
  omap (λ ev, match ev with
              | Print (SampleSent _ _) => Some true
              | Print (SampleFailed _ _) => Some false
              | _ => None
              end) t.

Definition printed_total (t : list event) : option nat :=
  head (omap (λ ev, match ev with Print (StatsTotal n) => Some n | _ => None end) t).
Definition printed_sent (t : list event) : option nat :=
  head (omap (λ ev, match ev with Print (StatsSent n) => Some n | _ => None end) t).
Definition printed_failed (t : list event) : option nat :=
  head (omap (λ ev, match ev with Print (StatsFailed n) => Some n | _ => None end) t).
Definition printed_rate (t : list event) : option float :=
  head (omap (λ ev, match ev with Print (StatsRate r) => Some r | _ => None end) t).

(** The lines a connect callback printed. *)
Definition connect_lines (t : list event) : list line :=
  omap (λ ev, match ev with
              | Print (ConnectOk host) => Some (ConnectOk host)
              | Print (ConnectFailed cause) => Some (ConnectFailed cause)
              | _ => None
              end) t.

(** The exception the session's handler reported, if any. *)
Definition reported_error (t : list event) : option exn :=
  head (omap (λ ev, match ev with Print (SendError e) => Some e | _ => None end) t).

(** The run summary, present when all four of its lines were printed. *)
Record Summary := {
  total : nat;
  succeeded : nat;
  failed : nat;
  success_rate : float
}.

Definition summary (t : list event) : option Summary :=
  n ← printed_total t; s ← printed_sent t; f ← printed_failed t;
  r ← printed_rate t;
  Some {| total := n; succeeded := s; failed := f; success_rate := r |}.

(** ** Row-wise view of the preprocessing *)

(** The feature columns written into a row. *)
Definition with_features (f : Cells) (r : gmap string value)
  : gmap string value :=
  <["signal_peak_to_peak" := cell_peak_to_peak f]>
    (<["signal_min" := cell_min f]>
      (<["signal_max" := cell_max f]>
        (<["signal_std" := cell_std f]>
          (<["signal_mean" := cell_mean f]> r)))).

(** The classification columns written into a row. *)
Definition with_classification (labeled : bool) (r : gmap string value)
  : gmap string value :=
  if labeled then
    <["fault_level" := map_label "level" "unknown" r]>
      (<["fault_desc" := map_label "desc" "未知状态" r]>
        (<["fault_code" := map_label "code" "UNKNOWN" r]> r))
  else
    <["fault_level" := VStr "pending"]>
      (<["fault_desc" := VStr "待算法端预测故障状态"]>
        (<["fault_code" := VStr "PENDING"]> r)).

(** A cell that holds a number. *)
Definition numeric (v : value) : bool :=
  match v with
  | VStr _ => false
  | _ => true
  end.

(** The signal vector of a row whose signal cells are numeric. *)
Definition vector_of (ints : bool) (cols : list string)
    (r : gmap string value) : vector :=
  default (Floats []) (signal_vector ints cols r).

(** What [load_bearing_data] makes of one row of the table. *)
Definition prepare (contiguous ints : bool) (cols : list string)
    (labeled : bool) (r : gmap string value) : option (gmap string value) :=
  v ← signal_vector ints cols r;
  Some (with_classification labeled (with_features (derive contiguous v) r)).

(** ** Row-wise view of the session *)

(** Payload and return code of every publish call of the loop: one per
    row, up to the first row whose message cannot be built. *)
Fixpoint deliveries (w : World) (k : nat) (rs : list (gmap string value))
  : list (string * Z) :=
  match rs with
  | [] => []
  | row :: rest =>
      match fst (message_json w k row) with
      | Return p => (p, publish_rc w k p) :: deliveries w (S k) rest
      | Raise _ => []
      end
  end.

(** The exception that stops the loop, if a row raises one. *)
Fixpoint first_error (w : World) (k : nat) (rs : list (gmap string value))
  : option exn :=
  match rs with
  | [] => None
  | row :: rest =>
      match fst (message_json w k row) with
      | Return _ => first_error w (S k) rest
      | Raise e => Some e
      end
  end.

Definition delivered (d : string * Z) : bool := snd d =? 0.

Definition count_sent (ds : list (string * Z)) : nat :=
  length (filter (λ d, delivered d = true) ds).
Definition count_failed (ds : list (string * Z)) : nat :=
  length (filter (λ d, delivered d = false) ds).

(** Every publish call is followed by its result line before the next
    publish call: [pending] tells whether a publish awaits its line. *)
Fixpoint sequenced (pending : bool) (t : list event) : bool :=
  match t with
  | [] => negb pending
  | Publish _ _ _ :: t' => negb pending && sequenced true t'
  | Print (SampleSent _ _) :: t' | Print (SampleFailed _ _) :: t' =>
      pending && sequenced false t'
  | _ :: t' => sequenced pending t'
  end.

(** ** Reading the payload back *)

(** Python's [==] on floats: NaN differs from everything, itself
    included. *)
Definition features_eqb (a b : Features) : bool :=
  PrimFloat.eqb (signal_mean a) (signal_mean b)
  && PrimFloat.eqb (signal_std a) (signal_std b)
  && PrimFloat.eqb (signal_max a) (signal_max b)
  && PrimFloat.eqb (signal_min a) (signal_min b)
  && PrimFloat.eqb (signal_peak_to_peak a) (signal_peak_to_peak b).

Definition value_eqb (a b : value) : bool :=
  match a, b with
  | VStr s, VStr t => String.eqb s t
  | VInt x, VInt y => x =? y
  | VFloat x, VFloat y => PrimFloat.eqb x y
  | VInt x, VFloat y | VFloat y, VInt x =>
      match F64.integral y with Some z => x =? z | None => false end
  | _, _ => false
  end.

(** Field-for-field equality of two envelopes, with Python's [==]. *)
Definition envelope_eqb (a b : Envelope) : bool :=
  (sample_id a =? sample_id b)
  && value_eqb (fault_code a) (fault_code b)
  && value_eqb (fault_desc a) (fault_desc b)
  && value_eqb (fault_level a) (fault_level b)
  && features_eqb (signal_features a) (signal_features b)
  && (send_timestamp a =? send_timestamp b)
  && String.eqb (send_time a) (send_time b).

Definition value_of_json (j : json) : option value :=
  match j with
  | JStr s => Some (VStr s)
  | JFloat x => Some (VFloat x)
  | JInt z => Some (VInt z)
  | _ => None
  end.

Definition float_of_json (j : json) : option float :=
  match j with
  | JFloat x => Some x
  | JInt z => Some (F64.of_Z z)
  | _ => None
  end.

Definition int_of_json (j : json) : option Z :=
  match j with JInt z => Some z | _ => None end.

Definition string_of_json (j : json) : option string :=
  match j with JStr s => Some s | _ => None end.

(** The fields of the wire message, read by key. *)
Definition features_of_json (j : json) : option Features :=
  mean ← Json.get "mean" j ≫= float_of_json;
  std ← Json.get "std" j ≫= float_of_json;
  mx ← Json.get "max" j ≫= float_of_json;
  mn ← Json.get "min" j ≫= float_of_json;
  ptp ← Json.get "peak_to_peak" j ≫= float_of_json;
  Some {| signal_mean := mean; signal_std := std; signal_max := mx;
          signal_min := mn; signal_peak_to_peak := ptp |}.

Definition envelope_of_json (j : json) : option Envelope :=
  sid ← Json.get "sample_id" j ≫= int_of_json;
  code ← Json.get "fault_code" j ≫= value_of_json;
  desc ← Json.get "fault_desc" j ≫= value_of_json;
  level ← Json.get "fault_level" j ≫= value_of_json;
  feats ← Json.get "signal_features" j ≫= features_of_json;
  ts ← Json.get "send_timestamp" j ≫= int_of_json;
  tm ← Json.get "send_time" j ≫= string_of_json;
  Some {| sample_id := sid; fault_code := code; fault_desc := desc;
          fault_level := level; signal_features := feats;
          send_timestamp := ts; send_time := tm |}.

(** Modelled from the spec: the reader of the payload is on the
    algorithm side and not part of this repository. Deserializing is
    [json.loads] followed by reading the seven fields of the wire
    message by key. *)
Definition deserialize (payload : string) : option Envelope :=
  Json.loads payload ≫= envelope_of_json.

(** A float reads back from its JSON text: it is an infinity, written as
    a keyword, or its text is a number literal that denotes a float equal
    to it. NaN never does, since it is equal to nothing. *)
Definition reads_back (x : float) : bool :=
  if PrimFloat.is_nan x then false
  else if PrimFloat.eqb x PrimFloat.infinity then true
  else if PrimFloat.eqb x PrimFloat.neg_infinity then true
  else
    let t := Text.float_repr x in
    forallb Json.number_char t
    && match Json.match_number t with
       | Some (JFloat y, []) => PrimFloat.eqb x y
       | _ => false
       end.

Definition features_read_back (f : Features) : bool :=
  reads_back (signal_mean f) && reads_back (signal_std f)
  && reads_back (signal_max f) && reads_back (signal_min f)
  && reads_back (signal_peak_to_peak f).

(** What follows a value in the text: nothing, or a character that no
    number contains. *)
Definition ends_value (rest : list ascii) : Prop :=
  match rest with
  | c :: _ => Json.number_char c = false
  | [] => True
  end.

(** [v] is written as a text that is read back as [v'], given at least
    [n] units of fuel. *)
Definition parses_as (n : nat) (v v' : json) : Prop :=
  (∀ rest, Json.skip_ws (Json.encode v ++ rest) = Json.encode v ++ rest)
  ∧ (∀ f rest, ends_value rest →
               Json.parse_value (n + f) (Json.encode v ++ rest) = Some (v', rest)).

(** ** The trace of a session, spelled out *)

(** The line printed once the [k]-th publish call returned [rc]. *)
Definition result_line (row : gmap string value) (rc : Z) : line :=
  let id := default (VInt 0) (row !! "id") in
  if rc =? 0 then SampleSent id (default (VInt 0) (row !! "fault_code"))
  else SampleFailed id rc.

(** What the loop does: for each row in turn the publish call, the line
    about its result and the pacing delay, until a row raises. *)
Fixpoint loop_trace (w : World) (k : nat) (rs : list (gmap string value))
  : list event :=
  match rs with
  | [] => []
  | row :: rest =>
      match fst (message_json w k row) with
      | Return p =>
          Publish (topic MQTT_CONFIG) p (qos MQTT_CONFIG)
          :: Print (result_line row (publish_rc w k p))
          :: Sleep 200
          :: loop_trace w (S k) rest
      | Raise _ => []
      end
  end.

(** What precedes the loop once [connect] has returned. *)
Definition opening (w : World) : list event :=
  LoopStart
  :: match connack w with
     | Some rc => snd (connect_callback rc)
     | None => []
     end
  ++ [Sleep 1000].

(** What follows the loop: the handler's line when a row raised;
    otherwise the disconnect and the statistics, whose last line is the
    handler's when the table has no row. *)
Definition closing (w : World) (df : DataFrame) : list event :=
  match first_error w 0 (rows df) with
  | Some e => [Print (SendError e)]
  | None =>
      let ds := deliveries w 0 (rows df) in
      [Sleep 2000; LoopStop; Disconnect; Print StatsHeader;
       Print (StatsTotal (len df)); Print (StatsSent (count_sent ds));
       Print (StatsFailed (count_failed ds))]
      ++ match fst (success_percent (count_sent ds) (len df)) with
         | Return percent => [Print (StatsRate percent)]
         | Raise e => [Print (SendError e)]
         end
  end.

Definition session_trace (w : World) (df : DataFrame) : list event :=
  [NewClient ("bearing_sender_"
              +:+ string_of_list_ascii (Text.int_repr (start_time w)));
   UsernamePwSet "algorithm_user" "algorithm_pwd";
   Connect (broker MQTT_CONFIG) (port MQTT_CONFIG) 60]
  ++ if connect_raises w then [Print (SendError OSError)]
     else opening w ++ loop_trace w 0 (rows df) ++ closing w df.

(** The same world, except for the broker's answer to the connection
    request. *)
Definition with_connack (answer : option Z) (w : World) : World :=
  {| read_csv := read_csv w;
     start_time := start_time w;
     row_time := row_time w;
     row_time_text := row_time_text w;
     connect_raises := connect_raises w;
     connack := answer;
     publish_rc := publish_rc w |}.

(** [round(send_count / total * 100, 2)] for a non-empty table. *)
Definition percent_of (send_count total : nat) : float :=
  F64.round_ndigits
    (PrimFloat.mul (F64.of_ratio (Z.of_nat send_count) (Z.of_nat total))
                   100%float) 2.

(** ** More ways to read a table and a trace *)

(** The columns [load_bearing_data] writes. *)
Definition feature_columns : list string :=
  ["signal_mean"; "signal_std"; "signal_max"; "signal_min";
   "signal_peak_to_peak"].

Definition derived_columns : list string :=
  feature_columns ++ ["fault_code"; "fault_desc"; "fault_level"].

(** The labels of a table after [df[name] = ...]. *)
Definition add_column (name : string) (cols : list string) : list string :=
  if bool_decide (name ∈ cols) then cols else cols ++ [name].

(** The calls made on the MQTT client, without the prints and the
    pauses. *)
Definition is_call (ev : event) : bool :=
  match ev with
  | Print _ | Sleep _ => false
  | _ => true
  end.

Definition client_calls (t : list event) : list event :=
  filter (λ ev, is_call ev = true) t.

(** The time spent in [time.sleep], in milliseconds. *)
Definition slept (t : list event) : Z :=
  foldr (λ ev acc, match ev with Sleep ms => ms + acc | _ => acc end) 0 t.

(** Where the client stands: not created, created, after the call of
    [connect], with its network loop running, with the loop stopped,
    disconnected. *)
Inductive phase := Idle | Created | Connecting | Looping | Stopped | Closed.

(** The calls the client accepts in each phase; prints and pauses may
    come at any time. *)
Definition next (p : phase) (ev : event) : option phase :=
  match ev, p with
  | NewClient _, Idle => Some Created
  | UsernamePwSet _ _, Created => Some Created
  | Connect _ _ _, Created => Some Connecting
  | LoopStart, Connecting => Some Looping
  | Publish _ _ _, Looping => Some Looping
  | LoopStop, Looping => Some Stopped
  | Disconnect, Stopped => Some Closed
  | Sleep _, _ | Print _, _ => Some p
  | _, _ => None
  end.

(** The phase a trace ends in, if every call came in its phase. *)
Fixpoint final_phase (p : phase) (t : list event) : option phase :=
  match t with
  | [] => Some p
  | ev :: t' => p' ← next p ev; final_phase p' t'
  end.

(** The same world, except for the return codes of [client.publish]. *)
Definition with_publish_rc (rc : nat → string → Z) (w : World) : World :=
  {| read_csv := read_csv w;
     start_time := start_time w;
     row_time := row_time w;
     row_time_text := row_time_text w;
     connect_raises := connect_raises w;
     connack := connack w;
     publish_rc := rc |}.

(** A character [json.dumps(..., ensure_ascii=False)] writes as it is. *)
Definition plain (c : ascii) : bool :=
  negb (Ascii.eqb c Json.dquote) && negb (Ascii.eqb c Json.backslash)
  && (32 <=? Json.code c).

(** ** Sample inputs *)

Module Sample.

Definition row (id : value) (a b : float) : gmap string value :=
  <["id" := id]> (<["1" := VFloat a]> (<["2" := VFloat b]> ∅)).

Definition labeled_row (id : value) (label : Z) (a b : float)
  : gmap string value :=
  <["label" := VInt label]> (row id a b).

(** Three labeled rows; the label of the second is not in the fault
    table. *)
Definition labeled_table : DataFrame :=
  {| columns := ["id"; "1"; "2"; "label"];
     rows := [labeled_row (VInt 1) 0 1.5 2.5;
              labeled_row (VInt 2) 77 0.25 0.75;
              labeled_row (VInt 3) 9 (-1) 1] |}.

(** The same rows without the label column. *)
Definition unlabeled_table : DataFrame :=
  {| columns := ["id"; "1"; "2"];
     rows := [row (VInt 1) 1.5 2.5; row (VInt 2) 0.25 0.75; row (VInt 3) (-1) 1] |}.

(** A table whose signal vector has length 1. *)
Definition one_sample_table : DataFrame :=
  {| columns := ["id"; "1"; "label"];
     rows := [<["label" := VInt 1]> (<["id" := VInt 7]> (<["1" := VFloat 1]> ∅))] |}.

(** The identifier of the second row is missing: pandas reads the column
    as floats and the gap as NaN. *)
Definition missing_id_table : DataFrame :=
  {| columns := ["id"; "1"; "2"; "label"];
     rows := [labeled_row (VFloat 1) 0 1.5 2.5;
              labeled_row (VFloat PrimFloat.nan) 1 0.25 0.75;
              labeled_row (VFloat 3) 9 (-1) 1] |}.

(** Two signal columns of integers: pandas keeps them, their row-wise
    extremes and the difference of these as [int64]. *)
Definition integer_table : DataFrame :=
  {| columns := ["id"; "1"; "2"];
     rows := [<["id" := VInt 1]> (<["1" := VInt (2 ^ 62)]>
                (<["2" := VInt (- 2 ^ 62)]> ∅));
              <["id" := VInt 2]> (<["1" := VInt 5]> (<["2" := VInt 3]> ∅))] |}.

(** A column labelled with a superscript two. *)
Definition superscript_table : DataFrame :=
  {| columns := ["id"; "1"; "²"];
     rows := [<["id" := VInt 1]> (<["1" := VFloat 1.5]> (<["²" := VFloat 2.5]> ∅))] |}.

(** A table with its columns and no row. *)
Definition no_rows_table : DataFrame :=
  {| columns := ["id"; "1"; "2"; "label"; "signal_mean"; "signal_std";
                 "signal_max"; "signal_min"; "signal_peak_to_peak";
                 "fault_code"; "fault_desc"; "fault_level"];
     rows := [] |}.

(** The broker accepts the connection and every publish succeeds. *)
Definition world : World :=
  {| read_csv := λ _, Some labeled_table;
     start_time := 1700000000;
     row_time := λ k, 1700000001 + Z.of_nat k;
     row_time_text := λ _, "2023-11-14 22:13:21";
     connect_raises := false;
     connack := Some 0;
     publish_rc := λ _ _, 0 |}.

(** The second publish fails with [MQTT_ERR_NO_CONN]. *)
Definition lossy_world : World :=
  {| read_csv := λ _, Some labeled_table;
     start_time := 1700000000;
     row_time := λ k, 1700000001 + Z.of_nat k;
     row_time_text := λ _, "2023-11-14 22:13:21";
     connect_raises := false;
     connack := Some 0;
     publish_rc := λ k _, if (k =? 1)%nat then 4 else 0 |}.

(** The broker answers the connection request with return code 4, bad
    user name or password. *)
Definition rejecting_world : World :=
  {| read_csv := λ _, Some labeled_table;
     start_time := 1700000000;
     row_time := λ k, 1700000001 + Z.of_nat k;
     row_time_text := λ _, "2023-11-14 22:13:21";
     connect_raises := false;
     connack := Some 4;
     publish_rc := λ _ _, 4 |}.

(** The broker cannot be reached: [client.connect] raises. *)
Definition unreachable_world : World :=
  {| read_csv := λ _, Some labeled_table;
     start_time := 1700000000;
     row_time := λ k, 1700000001 + Z.of_nat k;
     row_time_text := λ _, "2023-11-14 22:13:21";
     connect_raises := true;
     connack := None;
     publish_rc := λ _ _, 0 |}.

Definition blank : Envelope :=
  {| sample_id := 0; fault_code := VStr ""; fault_desc := VStr "";
     fault_level := VStr "";
     signal_features :=
       {| signal_mean := 0; signal_std := 0; signal_max := 0;
          signal_min := 0; signal_peak_to_peak := 0 |};
     send_timestamp := 0; send_time := "" |}.

(** The [i]-th row of a table. *)
Definition nth_row (i : nat) (df : DataFrame) : gmap string value :=
  default ∅ (rows df !! i).

(** The envelope built for a row. *)
Definition envelope (w : World) (k : nat) (r : gmap string value) : Envelope :=
  match fst (build_message w k r) with
  | Return m => m
  | Raise _ => blank
  end.

(** The sessions used as examples. *)
Definition labeled_frame : DataFrame :=
  load_bearing_data (Some labeled_table) true.
Definition missing_id_frame : DataFrame :=
  load_bearing_data (Some missing_id_table) true.
Definition one_sample_frame : DataFrame :=
  load_bearing_data (Some one_sample_table) true.

Definition session : list event :=
  send_bearing_data_to_algorithm world labeled_frame.
Definition lossy_session : list event :=
  send_bearing_data_to_algorithm lossy_world labeled_frame.
Definition rejected_session : list event :=
  send_bearing_data_to_algorithm rejecting_world labeled_frame.
Definition unreachable_session : list event :=
  send_bearing_data_to_algorithm unreachable_world labeled_frame.
Definition missing_id_session : list event :=
  send_bearing_data_to_algorithm world missing_id_frame.
Definition empty_session : list event :=
  send_bearing_data_to_algorithm world no_rows_table.

End Sample.

(** * Properties *)

(** ** Feature derivation *)

Section FeatureFacts.

Implicit Types (v w : list float) (x y : float).

Lemma finite_not_nan x : PrimFloat.is_finite x = true → PrimFloat.is_nan x = false.
Proof.
  unfold PrimFloat.is_finite. destruct (PrimFloat.is_nan x); [discriminate | done].
Qed.

Lemma valid_of_finite v :
  Forall (λ x, PrimFloat.is_finite x = true) v → Stats.valid v = v.
Proof.
  unfold Stats.valid. induction 1 as [|x v Hx _ IH]; [done|].
  rewrite filter_cons_True by (by apply finite_not_nan). by rewrite IH.
Qed.

Lemma fold_fmax_elem w x : fold_left Stats.fmax w x ∈ x :: w.
Proof.
  revert x. induction w as [|y w IH]; intros x; simpl; [by left|].
  specialize (IH (Stats.fmax x y)). unfold Stats.fmax in *.
  destruct (PrimFloat.ltb x y); apply elem_of_cons in IH as [->|IH];
    rewrite !elem_of_cons; auto.
Qed.

Lemma fold_fmin_elem w x : fold_left Stats.fmin w x ∈ x :: w.
Proof.
  revert x. induction w as [|y w IH]; intros x; simpl; [by left|].
  specialize (IH (Stats.fmin x y)). unfold Stats.fmin in *.
  destruct (PrimFloat.ltb y x); apply elem_of_cons in IH as [->|IH];
    rewrite !elem_of_cons; auto.
Qed.

Lemma max_elem v :
  v ≠ [] → Forall (λ x, PrimFloat.is_finite x = true) v → Stats.max v ∈ v.
Proof.
  intros Hne Hfin. unfold Stats.max. rewrite (valid_of_finite v Hfin).
  destruct v as [|x w]; [done|]. apply fold_fmax_elem.
Qed.

Lemma min_elem v :
  v ≠ [] → Forall (λ x, PrimFloat.is_finite x = true) v → Stats.min v ∈ v.
Proof.
  intros Hne Hfin. unfold Stats.min. rewrite (valid_of_finite v Hfin).
  destruct v as [|x w]; [done|]. apply fold_fmin_elem.
Qed.

(** One valid sample: the divisor [count - 1] is zero and pandas
    answers NaN. *)
Lemma std_single c x :
  PrimFloat.is_nan x = false → Stats.std c [x] = PrimFloat.nan.
Proof.
  intros Hx. unfold Stats.std, Stats.var, Stats.count, Stats.valid.
  rewrite filter_cons_True by done. reflexivity.
Qed.

End FeatureFacts.




(** Finite entries do not keep the other three features finite: the sum
    and the difference can overflow. *)
Example mean_overflows :
  signal_mean (derive_features false [0x1p+1023%float; 0x1p+1023%float])
  = PrimFloat.infinity.
Proof. reflexivity. Qed.

Example peak_to_peak_overflows :
  signal_peak_to_peak
    (derive_features false [0x1p+1023%float; (-0x1p+1023)%float])
  = PrimFloat.infinity
  ∧ PrimFloat.is_nan
      (signal_std (derive_features false [0x1p+1023%float; (-0x1p+1023)%float]))
    = false
  ∧ PrimFloat.is_finite
      (signal_std (derive_features false [0x1p+1023%float; (-0x1p+1023)%float]))
    = false.
Proof. repeat split. Qed.

(** ** Preprocessing, row by row *)

Section LoadFacts.

Implicit Types (r : gmap string value) (df csv : DataFrame).

Lemma mapM_total {A B} (h : A → B) (l : list A) :
  mapM (λ x, Some (h x)) l = Some (h <$> l).
Proof. induction l as [|x l IH]; [done|]. simpl. by rewrite IH. Qed.

(** The labels the filter of line 53 keeps pass its test. *)
Lemma signal_cols_elem df cols c :
  signal_cols df = Some cols → c ∈ cols → is_signal_col c = Some true.
Proof.
  unfold signal_cols. intros H Hc.
  destruct (mapM is_signal_col (columns df)) as [tests|] eqn:Ht;
    simpl in H; [|done].
  injection H as <-. apply mapM_Some_1 in Ht.
  apply list_elem_of_fmap in Hc as ([c' t] & -> & Hin). simpl.
  apply list_elem_of_filter in Hin as [Htrue Hin]. simpl in Htrue. subst t.
  apply list_elem_of_lookup in Hin as [i Hi].
  apply lookup_zip_with_Some in Hi as (c'' & t & [= <- <-] & Hc' & Ht').
  destruct (Forall2_lookup_l _ _ _ _ _ Ht Hc') as (t & Ht'' & Htest).
  congruence.
Qed.

Lemma not_signal_col name df cols :
  signal_cols df = Some cols → is_signal_col name = Some false → name ∉ cols.
Proof.
  intros Hcols Hname Hin.
  rewrite (signal_cols_elem df cols name Hcols Hin) in Hname. done.
Qed.

Lemma signal_vector_insert ints cols r name x :
  name ∉ cols →
  signal_vector ints cols (<[name := x]> r) = signal_vector ints cols r.
Proof.
  intros Hname. unfold signal_vector.
  destruct ints; f_equal; apply Forall_mapM_ext, Forall_forall;
    intros c Hc; (rewrite lookup_insert_ne; [done|]); by intros ->.
Qed.

Lemma map_label_insert field dflt name x r :
  name ≠ "label" →
  map_label field dflt (<[name := x]> r) = map_label field dflt r.
Proof. intros Hne. unfold map_label. by rewrite lookup_insert_ne. Qed.

Lemma has_column_assign c name f df :
  has_column c (assign name f df) = has_column c df || bool_decide (c = name).
Proof.
  unfold assign, has_column. simpl.
  destruct (bool_decide (name ∈ columns df)) eqn:Hn.
  - apply bool_decide_eq_true in Hn.
    destruct (bool_decide (c = name)) eqn:Hc.
    + apply bool_decide_eq_true in Hc. subst.
      rewrite orb_true_r. by apply bool_decide_eq_true.
    + by rewrite orb_false_r.
  - apply eq_true_iff_eq. rewrite orb_true_iff, !bool_decide_eq_true.
    rewrite elem_of_app, list_elem_of_singleton. done.
Qed.

Lemma columns_assign name f df :
  columns (assign name f df) = add_column name (columns df).
Proof. done. Qed.

Lemma forallb_ext_in {A} (f g : A → bool) (l : list A) :
  (∀ x, x ∈ l → f x = g x) → forallb f l = forallb g l.
Proof.
  induction l as [|x l IH]; intros H; [done|]. simpl.
  rewrite H, IH; [done| |by left]. intros y Hy. apply H. by right.
Qed.

Lemma all_int64_fmap cols df df' (g : gmap string value → gmap string value) :
  rows df' = g <$> rows df →
  (∀ r c, c ∈ cols → g r !! c = r !! c) →
  all_int64 cols df' = all_int64 cols df.
Proof.
  intros Hrows Hg. unfold all_int64. destruct cols as [|c0 cols']; [done|].
  rewrite Hrows. clear Hrows. set (cols := c0 :: cols') in *.
  induction (rows df) as [|r l IH]; [done|].
  rewrite fmap_cons. cbn [forallb]. fold cols. rewrite IH. f_equal.
  apply forallb_ext_in. intros c Hc. by rewrite Hg.
Qed.

Lemma mapM_vectors ints cols (g : gmap string value → vector → gmap string value)
    (l : list (gmap string value)) :
  Forall (λ r, is_Some (signal_vector ints cols r)) l →
  mapM (λ r, v ← signal_vector ints cols r; Some (g r v)) l
  = Some ((λ r, g r (vector_of ints cols r)) <$> l).
Proof.
  induction 1 as [|r l [v Hv] _ IH]; [done|]. simpl.
  rewrite Hv. simpl. rewrite IH. unfold vector_of. by rewrite Hv.
Qed.

Lemma mapM_vectors_none ints cols
    (g : gmap string value → vector → gmap string value)
    (l : list (gmap string value)) :
  ¬ Forall (λ r, is_Some (signal_vector ints cols r)) l →
  mapM (λ r, v ← signal_vector ints cols r; Some (g r v)) l = None.
Proof.
  intros Hnot. destruct (mapM _ l) as [k|] eqn:Hk; [|done].
  exfalso. apply Hnot. apply mapM_Some_1 in Hk.
  apply Forall_forall. intros x Hx. apply list_elem_of_lookup in Hx as [i Hi].
  destruct (Forall2_lookup_l _ _ _ _ _ Hk Hi) as (z & _ & Hz).
  destruct (signal_vector ints cols x); [by eexists|done].
Qed.

(** A reduction over rows whose signal cells are numeric writes its
    column in every row; over text it raises. *)
Lemma reduce_some name cols f df :
  Forall (λ r, is_Some (signal_vector (all_int64 cols df) cols r)) (rows df) →
  reduce name cols f df
  = Some {| columns := add_column name (columns df);
            rows := (λ r, <[name := f (vector_of (all_int64 cols df) cols r)]> r)
                    <$> rows df |}.
Proof.
  intros Hok. unfold reduce.
  by rewrite (mapM_vectors _ _ (λ r v, <[name := f v]> r) _ Hok).
Qed.

Lemma reduce_none name cols f df :
  ¬ Forall (λ r, is_Some (signal_vector (all_int64 cols df) cols r)) (rows df) →
  reduce name cols f df = None.
Proof.
  intros Hnot. unfold reduce.
  by rewrite (mapM_vectors_none _ _ (λ r v, <[name := f v]> r) _ Hnot).
Qed.

End LoadFacts.

Lemma signal_vector_ext ints cols (r1 r2 : gmap string value) :
  (∀ c, c ∈ cols → r1 !! c = r2 !! c) →
  signal_vector ints cols r1 = signal_vector ints cols r2.
Proof.
  intros H. unfold signal_vector.
  destruct ints; f_equal; apply Forall_mapM_ext, Forall_forall;
    intros c Hc; by rewrite H.
Qed.

Lemma rows_classify is_train df :
  rows (classify is_train df)
  = with_classification (is_train && has_column "label" df) <$> rows df.
Proof.
  unfold classify, with_classification.
  destruct (is_train && has_column "label" df); unfold assign; simpl.
  - induction (rows df) as [|r l IH]; [done|]. csimpl.
    rewrite IH. f_equal. by rewrite !map_label_insert.
  - induction (rows df) as [|r l IH]; [done|]. csimpl. by rewrite IH.
Qed.

Lemma columns_classify is_train df :
  columns (classify is_train df)
  = add_column "fault_level"
      (add_column "fault_desc" (add_column "fault_code" (columns df))).
Proof. unfold classify. by destruct (is_train && has_column "label" df). Qed.

Lemma add_column_elem name c cols :
  c ∈ add_column name cols ↔ c ∈ cols ∨ c = name.
Proof.
  unfold add_column. destruct (bool_decide (name ∈ cols)) eqn:H.
  - apply bool_decide_eq_true in H. split; [by left|]. by intros [?| ->].
  - by rewrite elem_of_app, list_elem_of_singleton.
Qed.

Lemma foldl_add_column_elem c names cols :
  c ∈ foldl (λ cols name, add_column name cols) cols names ↔ c ∈ cols ∨ c ∈ names.
Proof.
  revert cols. induction names as [|n names IH]; intros cols; simpl.
  - rewrite elem_of_nil. tauto.
  - rewrite IH, add_column_elem, elem_of_cons. tauto.
Qed.

(** One reduction of lines 55 to 58, on a table whose rows are those of
    the table read with columns written into them. *)
Lemma reduce_derived name cols f csv df (g : gmap string value → gmap string value) :
  name ∉ cols →
  rows df = g <$> rows csv →
  (∀ r c, c ∈ cols → g r !! c = r !! c) →
  Forall (λ r, is_Some (signal_vector (all_int64 cols csv) cols r)) (rows csv) →
  reduce name cols f df
  = Some {| columns := add_column name (columns df);
            rows := (λ r, <[name := f (vector_of (all_int64 cols csv) cols r)]> (g r))
                    <$> rows csv |}.
Proof.
  intros Hname Hrows Hg Hok.
  assert (all_int64 cols df = all_int64 cols csv) as Hints
    by (by apply (all_int64_fmap cols csv df g)).
  rewrite reduce_some.
  - rewrite Hints, Hrows, <- list_fmap_compose. do 2 f_equal.
    apply list_fmap_ext. intros i r Hr. simpl. unfold vector_of.
    by rewrite (signal_vector_ext _ cols (g r) r (Hg r)).
  - rewrite Hints, Hrows. apply Forall_fmap. eapply Forall_impl; [exact Hok|].
    intros r Hr. simpl. by rewrite (signal_vector_ext _ cols (g r) r (Hg r)).
Qed.

Lemma reduce_derived_none name cols f csv df (g : gmap string value → gmap string value) :
  rows df = g <$> rows csv →
  (∀ r c, c ∈ cols → g r !! c = r !! c) →
  ¬ Forall (λ r, is_Some (signal_vector (all_int64 cols csv) cols r)) (rows csv) →
  reduce name cols f df = None.
Proof.
  intros Hrows Hg Hnot.
  assert (all_int64 cols df = all_int64 cols csv) as Hints
    by (by apply (all_int64_fmap cols csv df g)).
  apply reduce_none. rewrite Hints, Hrows. intros Hall. apply Hnot.
  rewrite Forall_forall in *. intros r Hr. specialize (Hall (g r)).
  rewrite (signal_vector_ext _ cols (g r) r (Hg r)) in Hall.
  apply Hall. apply list_elem_of_fmap. by exists r.
Qed.

Lemma derived_not_signal csv cols name :
  signal_cols csv = Some cols → name ∈ derived_columns → name ∉ cols.
Proof.
  intros Hcols Hname. apply (not_signal_col name csv cols Hcols).
  unfold derived_columns, feature_columns in Hname. simpl in Hname.
  repeat (apply elem_of_cons in Hname as [->|Hname]; [reflexivity|]).
  by apply elem_of_nil in Hname.
Qed.

(** The table [load_bearing_data] returns when nothing raises: the
    labels of the table read followed by the derived ones that were not
    among them, and the rows of the table read, each with its feature
    and classification columns. *)
Lemma load_ok csv is_train cols :
  signal_cols csv = Some cols →
  Forall (λ r, is_Some (signal_vector (all_int64 cols csv) cols r)) (rows csv) →
  load_bearing_data (Some csv) is_train
  = {| columns := foldl (λ cs name, add_column name cs) (columns csv)
                        derived_columns;
       rows := (λ r, with_classification (is_train && has_column "label" csv)
                       (with_features
                          (derive (len csv =? 1)%nat
                                  (vector_of (all_int64 cols csv) cols r)) r))
               <$> rows csv |}.
Proof.
  intros Hcols Hok. unfold load_bearing_data. simpl. rewrite Hcols. simpl.
  assert (∀ name, name ∈ derived_columns → name ∉ cols) as Hder
    by (intros name; apply (derived_not_signal csv cols name Hcols)).
  set (c := (len csv =? 1)%nat). set (ints := all_int64 cols csv).
  set (vec := vector_of ints cols).
  rewrite (reduce_derived "signal_mean" cols _ csv csv id);
    [|apply Hder; repeat constructor|by rewrite list_fmap_id|done|done].
  simpl.
  erewrite (reduce_derived "signal_std" cols _ csv _
              (λ r, <["signal_mean" := vmean c (vec r)]> r));
    [|apply Hder; repeat constructor|done| |done].
  2:{ intros r c0 Hc0. rewrite lookup_insert_ne; [done|].
      intros <-. by apply (Hder "signal_mean"); [repeat constructor|]. }
  simpl.
  erewrite (reduce_derived "signal_max" cols _ csv _
              (λ r, <["signal_std" := vstd c (vec r)]>
                      (<["signal_mean" := vmean c (vec r)]> r)));
    [|apply Hder; repeat constructor|done| |done].
  2:{ intros r c0 Hc0. rewrite !lookup_insert_ne; [done| |].
      - intros <-. by apply (Hder "signal_mean"); [repeat constructor|].
      - intros <-. by apply (Hder "signal_std"); [repeat constructor|]. }
  simpl.
  erewrite (reduce_derived "signal_min" cols _ csv _
              (λ r, <["signal_max" := vmax (vec r)]>
                      (<["signal_std" := vstd c (vec r)]>
                         (<["signal_mean" := vmean c (vec r)]> r))));
    [|apply Hder; repeat constructor|done| |done].
  2:{ intros r c0 Hc0. rewrite !lookup_insert_ne; [done| | |].
      - intros <-. by apply (Hder "signal_mean"); [repeat constructor|].
      - intros <-. by apply (Hder "signal_std"); [repeat constructor|].
      - intros <-. by apply (Hder "signal_max"); [repeat constructor|]. }
  simpl.
  match goal with
  | |- classify is_train ?d = _ =>
      assert (has_column "label" d = has_column "label" csv) as Hlabel
  end.
  { unfold has_column. rewrite columns_assign. cbn [columns].
    apply eq_true_iff_eq.
    rewrite !bool_decide_eq_true, !add_column_elem. intuition discriminate. }
  match goal with
  | |- classify is_train ?d = _ =>
      pose proof (rows_classify is_train d) as Hr;
      pose proof (columns_classify is_train d) as Hc
  end.
  rewrite Hlabel in Hr.
  destruct (classify is_train _) as [cs rs]. simpl in Hr, Hc. subst cs rs.
  f_equal. rewrite <- !list_fmap_compose. apply list_fmap_ext.
  intros i r Hi. simpl. f_equal.
  unfold with_features, derive, cell_or_nan. simpl.
  rewrite lookup_insert_eq.
  rewrite lookup_insert_ne, lookup_insert_eq by done. done.
Qed.

(** When the test of line 53 or a reduction raises, the table returned
    is the empty one. *)
Lemma load_failed csv is_train :
  (signal_cols csv = None
   ∨ ∃ cols, signal_cols csv = Some cols
             ∧ ¬ Forall (λ r, is_Some (signal_vector (all_int64 cols csv) cols r))
                        (rows csv)) →
  load_bearing_data (Some csv) is_train = empty_frame.
Proof.
  unfold load_bearing_data. simpl. intros [->|(cols & -> & Hnot)]; [done|].
  simpl.
  by rewrite (reduce_derived_none "signal_mean" cols _ csv csv id);
    [|by rewrite list_fmap_id|done|done].
Qed.

Lemma load_raises_false csv :
  load_raises csv = false
  ↔ ∃ cols, signal_cols csv = Some cols
            ∧ Forall (λ r, is_Some (signal_vector (all_int64 cols csv) cols r))
                     (rows csv).
Proof.
  unfold load_raises. destruct (signal_cols csv) as [cols|].
  - rewrite negb_false_iff, forallb_forall. split.
    + intros H. exists cols. split; [done|]. apply Forall_forall.
      intros r Hr. apply list_elem_of_In in Hr. specialize (H r Hr).
      by apply bool_decide_eq_true in H.
    + intros (cols' & [= <-] & H) r Hr. rewrite Forall_forall in H.
      apply bool_decide_eq_true. apply H. by apply list_elem_of_In.
  - split; [done|]. by intros (cols & [=] & _).
Qed.

Lemma load_raises_true csv is_train :
  load_raises csv = true → load_bearing_data (Some csv) is_train = empty_frame.
Proof.
  intros Hraise. apply load_failed.
  destruct (signal_cols csv) as [cols|] eqn:Hcols; [right|by left].
  exists cols. split; [done|]. intros Hall.
  assert (load_raises csv = false); [|congruence].
  apply load_raises_false. by exists cols.
Qed.

(** Row [i] of the loaded table is made from row [i] of the table
    read. *)
Lemma load_lookup csv is_train i r' :
  rows (load_bearing_data (Some csv) is_train) !! i = Some r' →
  len (load_bearing_data (Some csv) is_train) = len csv
  ∧ ∃ cols r v,
      signal_cols csv = Some cols
      ∧ rows csv !! i = Some r
      ∧ signal_vector (all_int64 cols csv) cols r = Some v
      ∧ r' = with_classification (is_train && has_column "label" csv)
               (with_features (derive (len csv =? 1)%nat v) r).
Proof.
  destruct (load_raises csv) eqn:Hraise.
  - rewrite (load_raises_true csv is_train Hraise). simpl.
    by rewrite lookup_nil.
  - apply load_raises_false in Hraise as (cols & Hcols & Hok).
    rewrite (load_ok csv is_train cols Hcols Hok). simpl. intros Hi.
    split; [unfold len; simpl; by rewrite length_fmap|].
    apply list_lookup_fmap_Some in Hi as (r & -> & Hr).
    rewrite Forall_forall in Hok.
    destruct (Hok r) as [v Hv]; [apply list_elem_of_lookup; eauto|].
    exists cols, r, v. unfold vector_of. by rewrite Hv.
Qed.

Lemma loaded_row csv is_train r' :
  r' ∈ rows (load_bearing_data (Some csv) is_train) →
  ∃ cols r v,
    signal_cols csv = Some cols
    ∧ r ∈ rows csv
    ∧ signal_vector (all_int64 cols csv) cols r = Some v
    ∧ r' = with_classification (is_train && has_column "label" csv)
             (with_features (derive (len csv =? 1)%nat v) r).
Proof.
  intros [i Hi]%list_elem_of_lookup.
  apply load_lookup in Hi as (_ & cols & r & v & Hcols & Hr & Hv & ->).
  exists cols, r, v. split; [done|]. split; [|done].
  apply list_elem_of_lookup. eauto.
Qed.

(** When nothing raises, no row is lost. *)
Lemma load_length csv is_train :
  load_raises csv = false →
  len (load_bearing_data (Some csv) is_train) = len csv.
Proof.
  intros (cols & Hcols & Hok)%load_raises_false.
  rewrite (load_ok csv is_train cols Hcols Hok). unfold len. simpl.
  by rewrite length_fmap.
Qed.

Lemma load_unlabeled csv :
  has_column "label" csv = false →
  load_bearing_data (Some csv) true = load_bearing_data (Some csv) false.
Proof.
  intros Hcol. destruct (load_raises csv) eqn:Hraise.
  - by rewrite !load_raises_true.
  - apply load_raises_false in Hraise as (cols & Hcols & Hok).
    rewrite !(load_ok csv _ cols Hcols Hok). by rewrite Hcol.
Qed.



(** The relation is one of the derived columns: the envelope rounds each
    feature to six decimals on its own, after which the difference of the
    rounded max and min need not be the rounded peak-to-peak. *)
Example rounded_features_differ :
  F64.round_ndigits (PrimFloat.sub 0x1.8p-22%float (-0x1.8p-22)%float) 6
  = F64.of_ratio 1 1000000
  ∧ PrimFloat.sub (F64.round_ndigits 0x1.8p-22%float 6)
                  (F64.round_ndigits (-0x1.8p-22)%float 6)
    = PrimFloat.zero.
Proof. split; vm_compute; reflexivity. Qed.

(** ** Computations that print and raise *)

Section PyFacts.

Context {A B : Type}.

Lemma bind_fst (m : Py A) (k : A → Py B) :
  fst (bind m k) = match fst m with
                   | Return a => fst (k a)
                   | Raise e => Raise e
                   end.
Proof. destruct m as [[a|e] t]; simpl; [by destruct (k a)|done]. Qed.

Lemma bind_snd (m : Py A) (k : A → Py B) :
  snd (bind m k) = snd m ++ match fst m with
                            | Return a => snd (k a)
                            | Raise e => []
                            end.
Proof.
  destruct m as [[a|e] t]; simpl; [by destruct (k a)|by rewrite app_nil_r].
Qed.

Lemma bind_silent (m : Py A) (k : A → Py B) :
  snd m = [] → (∀ a, snd (k a) = []) → snd (bind m k) = [].
Proof.
  intros Hm Hk. rewrite bind_snd, Hm. destruct (fst m); [apply Hk|done].
Qed.

End PyFacts.

Lemma getitem_fst r key :
  fst (getitem r key) = match r !! key with
                        | Some v => Return v
                        | None => Raise (KeyError key)
                        end.
Proof. unfold getitem. by destruct (r !! key). Qed.

Lemma getitem_silent r key : snd (getitem r key) = [].
Proof. unfold getitem. by destruct (r !! key). Qed.

Lemma rounded_feature_silent r key : snd (rounded_feature r key) = [].
Proof.
  unfold rounded_feature. apply bind_silent; [apply getitem_silent|].
  intros v. by apply bind_silent.
Qed.

Lemma build_message_silent w k r : snd (build_message w k r) = [].
Proof.
  unfold build_message.
  repeat (apply bind_silent;
          [first [apply getitem_silent | apply rounded_feature_silent | done]
          | intros ?]).
  done.
Qed.

Lemma message_json_silent w k r : snd (message_json w k r) = [].
Proof.
  unfold message_json. apply bind_silent; [apply build_message_silent|].
  intros m. reflexivity.
Qed.

(** Runs through the binds of a computation that is assumed to return,
    naming what each step returned. *)
Ltac py_returns r :=
  repeat match goal with
         | |- context [fst (bind _ _)] => rewrite bind_fst
         | |- context [fst (getitem r ?key)] =>
             rewrite (getitem_fst r key); destruct (r !! key) eqn:?; [|done]
         | |- context [fst (lift ?o)] =>
             change (fst (lift o)) with o; destruct o eqn:?; [|done]
         | |- context [fst (rounded_feature r ?key)] =>
             destruct (fst (rounded_feature r key)) eqn:?; [|done]
         end.

(** What a built envelope holds. *)
Lemma build_message_fields w k r m :
  fst (build_message w k r) = Return m →
  (∃ id, r !! "id" = Some id ∧ Conv.py_int id = Return (sample_id m))
  ∧ r !! "fault_code" = Some (fault_code m)
  ∧ r !! "fault_desc" = Some (fault_desc m)
  ∧ r !! "fault_level" = Some (fault_level m)
  ∧ send_timestamp m = row_time w k
  ∧ send_time m = row_time_text w k.
Proof.
  unfold build_message. py_returns r.
  simpl. intros [= <-]. simpl. eauto 10.
Qed.

(** ** Classification *)

Lemma fault_entry_fields code desc level :
  fault_entry code desc level !! "code" = Some code
  ∧ fault_entry code desc level !! "desc" = Some desc
  ∧ fault_entry code desc level !! "level" = Some level.
Proof. unfold fault_entry. repeat split; by simplify_map_eq. Qed.

(** Every entry of the fault table has its three fields. *)
Lemma fault_table_entries i e :
  FAULT_CODE_MAP !! i = Some e →
  ∃ code desc level, e = fault_entry code desc level.
Proof.
  unfold FAULT_CODE_MAP. intros Hin%elem_of_list_to_map_2.
  repeat (apply elem_of_cons in Hin as [[= -> ->]|Hin]; [eauto|]).
  by apply elem_of_nil in Hin.
Qed.

Lemma map_label_entry field dflt r x i e s :
  r !! "label" = Some x → dict_key x = Some i → FAULT_CODE_MAP !! i = Some e →
  e !! field = Some s → map_label field dflt r = VStr s.
Proof.
  intros Hx Hi He Hs. unfold map_label. rewrite Hx. simpl. rewrite Hi. simpl.
  rewrite He. simpl. by rewrite Hs.
Qed.

Lemma map_label_default field dflt r :
  (x ← r !! "label"; i ← dict_key x; FAULT_CODE_MAP !! i) = None →
  map_label field dflt r = VStr dflt.
Proof. intros Hnone. unfold map_label. by rewrite Hnone. Qed.

(** C6: the classification fields of the envelope built from a row of
    the loaded table. With a labeled source, a label found in the fault
    table gives that entry's code, description and level, and a label not
    found gives the UNKNOWN placeholder with level unknown; with an
    unlabeled source every row gets the PENDING placeholder with level
    pending. *)
Theorem classification_rule w k csv is_train r' m :
  r' ∈ rows (load_bearing_data (Some csv) is_train) →
  fst (build_message w k r') = Return m →
  (is_train && has_column "label" csv = true →
   ∀ x i e, r' !! "label" = Some x → dict_key x = Some i →
            FAULT_CODE_MAP !! i = Some e →
            ∃ code desc level,
              e !! "code" = Some code ∧ e !! "desc" = Some desc
              ∧ e !! "level" = Some level
              ∧ fault_code m = VStr code ∧ fault_desc m = VStr desc
              ∧ fault_level m = VStr level)
  ∧ (is_train && has_column "label" csv = true →
     (x ← r' !! "label"; i ← dict_key x; FAULT_CODE_MAP !! i) = None →
     fault_code m = VStr "UNKNOWN" ∧ fault_desc m = VStr "未知状态"
     ∧ fault_level m = VStr "unknown")
  ∧ (is_train = false →
     fault_code m = VStr "PENDING"
     ∧ fault_desc m = VStr "待算法端预测故障状态"
     ∧ fault_level m = VStr "pending").
Proof.
  intros (cols & r & v & _ & _ & _ & ->)%loaded_row Hm.
  apply build_message_fields in Hm as (_ & Hc & Hd & Hl & _).
  set (r1 := with_features (derive (len csv =? 1)%nat v) r) in *.
  unfold with_classification in *.
  split; [|split].
  - intros Hlab x i e Hx Hi He. rewrite Hlab in *.
    rewrite !lookup_insert_ne in Hx by done.
    destruct (fault_table_entries i e He) as (code & desc & level & ->).
    destruct (fault_entry_fields code desc level) as (Hcode & Hdesc & Hlevel).
    exists code, desc, level. split; [done|]. split; [done|]. split; [done|].
    rewrite (map_label_entry "code" _ r1 x i _ code Hx Hi He Hcode) in *.
    rewrite (map_label_entry "desc" _ r1 x i _ desc Hx Hi He Hdesc) in *.
    rewrite (map_label_entry "level" _ r1 x i _ level Hx Hi He Hlevel) in *.
    by simplify_map_eq.
  - intros Hlab Hnone. rewrite Hlab in *.
    rewrite !lookup_insert_ne in Hnone by done.
    rewrite !(map_label_default _ _ r1 Hnone) in *.
    by simplify_map_eq.
  - intros ->. simpl in *. by simplify_map_eq.
Qed.

Lemma classification_rule_witness :
  (true && has_column "label" Sample.labeled_table = true →
   ∀ x i e,
     Sample.nth_row 2 (load_bearing_data (Some Sample.labeled_table) true)
       !! "label" = Some x →
     dict_key x = Some i →
     FAULT_CODE_MAP !! i = Some e →
     ∃ code desc level,
       e !! "code" = Some code ∧ e !! "desc" = Some desc
       ∧ e !! "level" = Some level
       ∧ fault_code (Sample.envelope Sample.world 2
           (Sample.nth_row 2 (load_bearing_data (Some Sample.labeled_table) true)))
         = VStr code
       ∧ fault_desc (Sample.envelope Sample.world 2
           (Sample.nth_row 2 (load_bearing_data (Some Sample.labeled_table) true)))
         = VStr desc
       ∧ fault_level (Sample.envelope Sample.world 2
           (Sample.nth_row 2 (load_bearing_data (Some Sample.labeled_table) true)))
         = VStr level)
  ∧ fault_code (Sample.envelope Sample.world 2
      (Sample.nth_row 2 (load_bearing_data (Some Sample.labeled_table) true)))
    = VStr "B303".
Proof.
  pose proof (classification_rule Sample.world 2 Sample.labeled_table true
    (Sample.nth_row 2 (load_bearing_data (Some Sample.labeled_table) true))
    (Sample.envelope Sample.world 2
      (Sample.nth_row 2 (load_bearing_data (Some Sample.labeled_table) true))))
    as H.
  destruct H as (H & _ & _).
  - apply list_elem_of_lookup. exists 2%nat. vm_compute. reflexivity.
  - vm_compute. reflexivity.
  - split; [exact H|]. vm_compute. reflexivity.
Defined.


(** The first sample row: max 2.5, min 1.5, peak-to-peak 1; and the
    second row of the integer table: max 5, min 3, peak-to-peak 2, all
    three integers. *)
Example peak_to_peak_sample :
  Sample.nth_row 0 (load_bearing_data (Some Sample.labeled_table) true)
    !! "signal_peak_to_peak" = Some (VFloat 1)
  ∧ Sample.nth_row 1 (load_bearing_data (Some Sample.integer_table) true)
      !! "signal_peak_to_peak" = Some (VInt 2).
Proof. split; vm_compute; reflexivity. Qed.



(** The three rows are all there and pending. *)
Example missing_label_sample :
  load_raises Sample.unlabeled_table = false
  ∧ len (load_bearing_data (Some Sample.unlabeled_table) true) = 3%nat
  ∧ Sample.nth_row 1 (load_bearing_data (Some Sample.unlabeled_table) true)
      !! "fault_level" = Some (VStr "pending").
Proof. repeat split; vm_compute; reflexivity. Qed.

(** A column labelled with a superscript two passes [str.isdigit()] and
    makes [int] raise: the table returned is the empty one, whatever the
    rows hold; full-width digits are read as a number. *)
Example superscript_label_raises :
  isdigit "²" = true
  ∧ int_of_digits "²" = None
  ∧ load_raises Sample.superscript_table = true
  ∧ load_bearing_data (Some Sample.superscript_table) true = empty_frame
  ∧ is_signal_col "１２" = Some true.
Proof. repeat split; vm_compute; reflexivity. Qed.

(** ** The publish loop *)

Section LoopFacts.

Variable w : World.

Lemma message_json_keys k row p :
  fst (message_json w k row) = Return p →
  is_Some (row !! "id") ∧ is_Some (row !! "fault_code").
Proof.
  unfold message_json. rewrite bind_fst.
  destruct (fst (build_message w k row)) as [m|] eqn:Hm; [|done].
  apply build_message_fields in Hm as ((id & Hid & _) & Hcode & _).
  intros _. rewrite Hid, Hcode. eauto.
Qed.

Lemma count_sent_cons d ds :
  count_sent (d :: ds) = ((if delivered d then 1 else 0) + count_sent ds)%nat.
Proof.
  unfold count_sent. destruct (delivered d) eqn:Hd.
  - by rewrite filter_cons_True.
  - rewrite filter_cons_False; [done|]. by rewrite Hd.
Qed.

Lemma count_failed_cons d ds :
  count_failed (d :: ds) = ((if delivered d then 0 else 1) + count_failed ds)%nat.
Proof.
  unfold count_failed. destruct (delivered d) eqn:Hd.
  - rewrite filter_cons_False; [done|]. by rewrite Hd.
  - by rewrite filter_cons_True.
Qed.

(** The loop, row by row: its trace is [loop_trace], and it returns the
    counters advanced by the deliveries unless a row raised. *)
Lemma publish_rows_spec rs : ∀ k sc fc,
  publish_rows w k rs sc fc
  = (match first_error w k rs with
     | Some e => Raise e
     | None => Return ((sc + count_sent (deliveries w k rs))%nat,
                       (fc + count_failed (deliveries w k rs))%nat)
     end,
     loop_trace w k rs).
Proof.
  induction rs as [|row rest IH]; intros k sc fc.
  - simpl. unfold ret, count_sent, count_failed. simpl.
    by rewrite !Nat.add_0_r.
  - simpl. pose proof (message_json_silent w k row) as Hsil.
    pose proof (message_json_keys k row) as Hkeys.
    destruct (message_json w k row) as [[p|e] t]; simpl in *; subst t; [|done].
    destruct (Hkeys p eq_refl) as [[id Hid] [code Hcode]].
    unfold result_line, getitem. rewrite Hid, Hcode. simpl.
    rewrite count_sent_cons, count_failed_cons. unfold delivered. simpl.
    destruct (publish_rc w k p =? 0); simpl; rewrite IH;
      destruct (first_error w (S k) rest); simpl; try done;
      do 2 f_equal; f_equal; lia.
Qed.

End LoopFacts.

(** The script's session is the spelled-out trace. *)
Lemma session_trace_spec w df :
  send_bearing_data_to_algorithm w df = session_trace w df.
Proof.
  unfold send_bearing_data_to_algorithm, session_trace, session_body.
  simpl. destruct (connect_raises w); simpl; [done|].
  unfold opening, closing.
  rewrite publish_rows_spec.
  destruct (connack w) as [rc|]; simpl;
    destruct (first_error w 0 (rows df)); simpl;
    rewrite ?app_nil_r; try done;
    unfold success_percent; destruct (len df); simpl;
    by rewrite <- ?app_assoc.
Qed.

(** ** Reading the trace of a session *)

Section TraceFacts.

Variable w : World.

Lemma deliveries_lookup rs : ∀ k i d,
  deliveries w k rs !! i = Some d →
  ∃ row, rs !! i = Some row
         ∧ fst (message_json w (k + i) row) = Return (fst d)
         ∧ snd d = publish_rc w (k + i) (fst d).
Proof.
  induction rs as [|row rest IH]; intros k i d; simpl; [done|].
  destruct (fst (message_json w k row)) as [p|e] eqn:Hp; [|done].
  destruct i as [|i]; simpl.
  - intros [= <-]. exists row. rewrite Nat.add_0_r. done.
  - intros Hd. destruct (IH (S k) i d Hd) as (row' & Hrow & Hmsg & Hrc).
    exists row'. replace (k + S i)%nat with (S k + i)%nat by lia. done.
Qed.

Lemma deliveries_length rs k : (length (deliveries w k rs) ≤ length rs)%nat.
Proof.
  revert k. induction rs as [|row rest IH]; intros k; simpl; [done|].
  destruct (fst (message_json w k row)); simpl; [|lia].
  specialize (IH (S k)). lia.
Qed.

(** Without a row error every row is delivered; with one, not all. *)
Lemma deliveries_all rs k :
  first_error w k rs = None → length (deliveries w k rs) = length rs.
Proof.
  revert k. induction rs as [|row rest IH]; intros k; simpl; [done|].
  destruct (fst (message_json w k row)); [|done].
  intros H. simpl. by rewrite IH.
Qed.

Lemma deliveries_short rs k e :
  first_error w k rs = Some e → (length (deliveries w k rs) < length rs)%nat.
Proof.
  revert k. induction rs as [|row rest IH]; intros k; simpl; [done|].
  destruct (fst (message_json w k row)); simpl; [|lia].
  intros H. specialize (IH (S k) H). lia.
Qed.

Lemma count_sent_failed ds : (count_sent ds + count_failed ds = length ds)%nat.
Proof.
  induction ds as [|d ds IH]; [done|].
  rewrite count_sent_cons, count_failed_cons. simpl.
  destruct (delivered d); lia.
Qed.

Lemma published_loop rs k :
  published (loop_trace w k rs) = fst <$> deliveries w k rs.
Proof.
  revert k. induction rs as [|row rest IH]; intros k; simpl; [done|].
  destruct (fst (message_json w k row)) as [p|e]; [|done].
  unfold published in *. simpl. by rewrite IH.
Qed.

Lemma recorded_loop rs k :
  recorded (loop_trace w k rs) = delivered <$> deliveries w k rs.
Proof.
  revert k. induction rs as [|row rest IH]; intros k; simpl; [done|].
  destruct (fst (message_json w k row)) as [p|e]; [|done].
  unfold recorded, result_line, delivered in *. simpl.
  destruct (publish_rc w k p =? 0); simpl; by rewrite IH.
Qed.

Lemma sequenced_loop rs k t :
  sequenced false (loop_trace w k rs ++ t) = sequenced false t.
Proof.
  revert k. induction rs as [|row rest IH]; intros k; simpl; [done|].
  destruct (fst (message_json w k row)) as [p|e]; [|done].
  unfold result_line. simpl.
  destruct (publish_rc w k p =? 0); simpl; apply IH.
Qed.

(** The loop prints nothing but result lines. *)
Lemma omap_loop {A} (f : event → option A) rs k :
  (∀ a b c, f (Publish a b c) = None) →
  (∀ ms, f (Sleep ms) = None) →
  (∀ id code, f (Print (SampleSent id code)) = None) →
  (∀ id rc, f (Print (SampleFailed id rc)) = None) →
  omap f (loop_trace w k rs) = [].
Proof.
  intros Hpub Hsleep Hsent Hfail.
  revert k. induction rs as [|row rest IH]; intros k; simpl; [done|].
  destruct (fst (message_json w k row)) as [p|e]; [|done].
  simpl. rewrite Hpub, Hsleep. unfold result_line.
  destruct (publish_rc w k p =? 0); by rewrite ?Hsent, ?Hfail, IH.
Qed.

End TraceFacts.

Lemma connect_callback_silent rc : connect_callback rc = (Return tt, []).
Proof. reflexivity. Qed.

Lemma omap_opening {A} (f : event → option A) w :
  f LoopStart = None →
  (∀ ms, f (Sleep ms) = None) →
  omap f (opening w) = [].
Proof.
  intros Hstart Hsleep. unfold opening.
  destruct (connack w) as [rc|]; simpl; by rewrite Hstart, ?Hsleep.
Qed.

Lemma sequenced_opening w t :
  sequenced false (opening w ++ t) = sequenced false t.
Proof. unfold opening. simpl. by destruct (connack w) as [rc|]. Qed.

Lemma sequenced_closing w df : sequenced false (closing w df) = true.
Proof.
  unfold closing. destruct (first_error w 0 (rows df)); simpl; [done|].
  by destruct (fst (success_percent _ _)).
Qed.

Section SessionFacts.

Variables (w : World) (df : DataFrame).

Let t := send_bearing_data_to_algorithm w df.

Lemma published_session :
  published t
  = if connect_raises w then [] else fst <$> deliveries w 0 (rows df).
Proof.
  unfold t. rewrite session_trace_spec. unfold session_trace.
  destruct (connect_raises w); [done|].
  unfold published. rewrite !omap_app, omap_opening by done.
  fold (published (loop_trace w 0 (rows df))). rewrite published_loop.
  unfold closing. destruct (first_error w 0 (rows df)); simpl.
  - by rewrite app_nil_r.
  - destruct (fst (success_percent _ _)); simpl; by rewrite app_nil_r.
Qed.

Lemma recorded_session :
  recorded t
  = if connect_raises w then [] else delivered <$> deliveries w 0 (rows df).
Proof.
  unfold t. rewrite session_trace_spec. unfold session_trace.
  destruct (connect_raises w); [done|].
  unfold recorded. rewrite !omap_app, omap_opening by done.
  fold (recorded (loop_trace w 0 (rows df))). rewrite recorded_loop.
  unfold closing. destruct (first_error w 0 (rows df)); simpl.
  - by rewrite app_nil_r.
  - destruct (fst (success_percent _ _)); simpl; by rewrite app_nil_r.
Qed.

Lemma sequenced_session : sequenced false t = true.
Proof.
  unfold t. rewrite session_trace_spec. unfold session_trace.
  destruct (connect_raises w); [done|].
  change (sequenced false (opening w ++ loop_trace w 0 (rows df) ++ closing w df)
          = true).
  rewrite sequenced_opening, sequenced_loop. apply sequenced_closing.
Qed.

(** The statistics lines and the handler's line. *)
Lemma printed_session :
  printed_total t
  = (if connect_raises w then None
     else match first_error w 0 (rows df) with
          | Some _ => None
          | None => Some (len df)
          end)
  ∧ printed_sent t
    = (if connect_raises w then None
       else match first_error w 0 (rows df) with
            | Some _ => None
            | None => Some (count_sent (deliveries w 0 (rows df)))
            end)
  ∧ printed_failed t
    = (if connect_raises w then None
       else match first_error w 0 (rows df) with
            | Some _ => None
            | None => Some (count_failed (deliveries w 0 (rows df)))
            end)
  ∧ printed_rate t
    = (if connect_raises w then None
       else match first_error w 0 (rows df) with
            | Some _ => None
            | None =>
                match fst (success_percent
                             (count_sent (deliveries w 0 (rows df))) (len df)) with
                | Return percent => Some percent
                | Raise _ => None
                end
            end)
  ∧ reported_error t
    = (if connect_raises w then Some OSError
       else match first_error w 0 (rows df) with
            | Some e => Some e
            | None =>
                match fst (success_percent
                             (count_sent (deliveries w 0 (rows df))) (len df)) with
                | Return _ => None
                | Raise e => Some e
                end
            end).
Proof.
  unfold t. rewrite session_trace_spec.
  unfold session_trace, printed_total, printed_sent, printed_failed,
    printed_rate, reported_error.
  destruct (connect_raises w); [done|].
  rewrite !omap_app, !omap_opening, !omap_loop by done.
  unfold closing. destruct (first_error w 0 (rows df)); simpl; [done|].
  by destruct (fst (success_percent _ _)).
Qed.

End SessionFacts.

(** ** The session's guarantees *)

Lemma success_percent_fst s n :
  fst (success_percent s n)
  = match n with
    | O => Raise ZeroDivisionError
    | _ => Return (percent_of s n)
    end.
Proof. by destruct n. Qed.

(** C9: the [i]-th message handed to the channel is the message of the
    [i]-th row, every publish call is followed by its result line before
    the next publish call, and a session that is not cut short publishes
    one message per row. *)
Theorem published_in_row_order w df :
  (∀ i p, published (send_bearing_data_to_algorithm w df) !! i = Some p →
          ∃ row, rows df !! i = Some row
                 ∧ fst (message_json w i row) = Return p)
  ∧ sequenced false (send_bearing_data_to_algorithm w df) = true
  ∧ (connect_raises w = false → first_error w 0 (rows df) = None →
     length (published (send_bearing_data_to_algorithm w df)) = len df).
Proof.
  rewrite published_session. split; [|split].
  - intros i p. destruct (connect_raises w); [done|].
    rewrite list_lookup_fmap.
    destruct (deliveries w 0 (rows df) !! i) as [d|] eqn:Hd; [|done].
    simpl. intros [= <-].
    destruct (deliveries_lookup w _ _ _ _ Hd) as (row & Hrow & Hmsg & _).
    eauto.
  - apply sequenced_session.
  - intros -> Hok. rewrite length_fmap. by apply deliveries_all.
Qed.

(** C8 (as amended): every delivery attempt is classified exactly once;
    whenever the counters are printed, succeeded + failed = total = the
    number of rows = the number of attempts; and in a session whose
    connect call returns and in which no row raises, every row yields a
    delivery attempt and the counters are printed. *)
Theorem delivery_accounting w df :
  length (recorded (send_bearing_data_to_algorithm w df))
  = length (published (send_bearing_data_to_algorithm w df))
  ∧ (∀ n s f,
       printed_total (send_bearing_data_to_algorithm w df) = Some n →
       printed_sent (send_bearing_data_to_algorithm w df) = Some s →
       printed_failed (send_bearing_data_to_algorithm w df) = Some f →
       n = len df ∧ (s + f)%nat = n
       ∧ length (published (send_bearing_data_to_algorithm w df)) = n
       ∧ s = length (filter (λ b, b = true)
                       (recorded (send_bearing_data_to_algorithm w df)))
       ∧ f = length (filter (λ b, b = false)
                       (recorded (send_bearing_data_to_algorithm w df))))
  ∧ (connect_raises w = false → first_error w 0 (rows df) = None →
     length (published (send_bearing_data_to_algorithm w df)) = len df
     ∧ printed_total (send_bearing_data_to_algorithm w df) = Some (len df)
     ∧ ∃ s f,
         printed_sent (send_bearing_data_to_algorithm w df) = Some s
         ∧ printed_failed (send_bearing_data_to_algorithm w df) = Some f
         ∧ (s + f)%nat = len df).
Proof.
  destruct (printed_session w df) as (Htotal & Hsent & Hfailed & _ & _).
  rewrite Htotal, Hsent, Hfailed, published_session, recorded_session.
  assert (∀ ds : list (string * Z),
            count_sent ds = length (filter (λ b, b = true) (delivered <$> ds))
            ∧ count_failed ds
              = length (filter (λ b, b = false) (delivered <$> ds))) as Hcount.
  { induction ds as [|d ds [IH1 IH2]]; [done|].
    rewrite count_sent_cons, count_failed_cons, fmap_cons.
    destruct (delivered d).
    - rewrite (filter_cons_True (λ b, b = true)) by done.
      rewrite (filter_cons_False (λ b, b = false)) by done. simpl. lia.
    - rewrite (filter_cons_False (λ b, b = true)) by done.
      rewrite (filter_cons_True (λ b, b = false)) by done. simpl. lia. }
  split; [|split].
  - destruct (connect_raises w); [done|]. by rewrite !length_fmap.
  - intros n s f. destruct (connect_raises w); [done|].
    destruct (first_error w 0 (rows df)) eqn:Herr; [done|].
    intros [= <-] [= <-] [= <-].
    pose proof (deliveries_all w _ _ Herr) as Hall.
    pose proof (count_sent_failed (deliveries w 0 (rows df))) as Hsum.
    destruct (Hcount (deliveries w 0 (rows df))) as [Hs Hf].
    rewrite length_fmap. unfold len. repeat split; try done; lia.
  - intros -> Herr. rewrite Herr, length_fmap.
    pose proof (deliveries_all w _ _ Herr) as Hall.
    pose proof (count_sent_failed (deliveries w 0 (rows df))) as Hsum.
    unfold len. split; [done|]. split; [done|].
    eexists _, _. split; [done|]. split; [done|]. lia.
Qed.

(** C2 (as amended): a failed connect call aborts the session before any
    publish; an error raised while a row is processed aborts it at that
    row, the remaining rows are not published and no statistics are
    printed; without such an error every row is published and the
    counters are printed whatever the publish calls returned. *)
Theorem row_error_aborts_session w df :
  (connect_raises w = true →
   published (send_bearing_data_to_algorithm w df) = []
   ∧ reported_error (send_bearing_data_to_algorithm w df) = Some OSError
   ∧ summary (send_bearing_data_to_algorithm w df) = None)
  ∧ (connect_raises w = false → ∀ e, first_error w 0 (rows df) = Some e →
     reported_error (send_bearing_data_to_algorithm w df) = Some e
     ∧ (length (published (send_bearing_data_to_algorithm w df)) < len df)%nat
     ∧ printed_total (send_bearing_data_to_algorithm w df) = None
     ∧ summary (send_bearing_data_to_algorithm w df) = None)
  ∧ (connect_raises w = false → first_error w 0 (rows df) = None →
     length (published (send_bearing_data_to_algorithm w df)) = len df
     ∧ printed_total (send_bearing_data_to_algorithm w df) = Some (len df)).
Proof.
  destruct (printed_session w df) as (Htotal & Hsent & Hfailed & Hrate & Herror).
  unfold summary.
  rewrite Htotal, Hsent, Hfailed, Hrate, Herror, published_session.
  split; [|split].
  - by intros ->.
  - intros -> e He. rewrite He, length_fmap.
    repeat split; try done. by apply (deliveries_short w _ _ e).
  - intros -> Hok. rewrite Hok, length_fmap.
    split; [|done]. by apply deliveries_all.
Qed.

Lemma message_json_with_connack answer w k row :
  message_json (with_connack answer w) k row = message_json w k row.
Proof. reflexivity. Qed.

Lemma deliveries_with_connack answer w rs k :
  deliveries (with_connack answer w) k rs = deliveries w k rs.
Proof.
  revert k. induction rs as [|row rest IH]; intros k; simpl; [done|].
  rewrite message_json_with_connack.
  destruct (fst (message_json w k row)); [|done]. simpl. by rewrite IH.
Qed.

Lemma first_error_with_connack answer w rs k :
  first_error (with_connack answer w) k rs = first_error w k rs.
Proof.
  revert k. induction rs as [|row rest IH]; intros k; simpl; [done|].
  rewrite message_json_with_connack.
  by destruct (fst (message_json w k row)).
Qed.

Lemma loop_trace_with_connack answer w rs k :
  loop_trace (with_connack answer w) k rs = loop_trace w k rs.
Proof.
  revert k. induction rs as [|row rest IH]; intros k; simpl; [done|].
  rewrite message_json_with_connack.
  destruct (fst (message_json w k row)); [|done]. simpl. by rewrite IH.
Qed.

Lemma session_with_connack answer w df :
  send_bearing_data_to_algorithm (with_connack answer w) df
  = send_bearing_data_to_algorithm (with_connack None w) df.
Proof.
  rewrite !session_trace_spec. unfold session_trace, opening, closing. simpl.
  rewrite !deliveries_with_connack, !first_error_with_connack,
    !loop_trace_with_connack.
  by destruct answer.
Qed.

Lemma connect_lines_session w df :
  connect_lines (send_bearing_data_to_algorithm w df) = [].
Proof.
  rewrite session_trace_spec. unfold session_trace, connect_lines.
  destruct (connect_raises w); [done|].
  rewrite !omap_app, omap_opening, omap_loop by done.
  unfold closing. destruct (first_error w 0 (rows df)); simpl; [done|].
  by destruct (fst (success_percent _ _)).
Qed.


(** C1 (as amended): in a session whose connect call returns and in
    which no row raises, a table with at least one row gets a summary
    whose success rate is the percentage [round(succeeded / total * 100,
    2)]; for a table with no row the division raises, the handler reports
    [ZeroDivisionError] after the three counters were printed, and no
    success rate is produced. *)
Theorem success_rate_of_session w df :
  connect_raises w = false →
  first_error w 0 (rows df) = None →
  (len df ≠ 0%nat →
   summary (send_bearing_data_to_algorithm w df)
   = Some {| total := len df;
             succeeded := count_sent (deliveries w 0 (rows df));
             failed := count_failed (deliveries w 0 (rows df));
             success_rate :=
               percent_of (count_sent (deliveries w 0 (rows df))) (len df) |})
  ∧ (len df = 0%nat →
     printed_total (send_bearing_data_to_algorithm w df) = Some 0%nat
     ∧ printed_rate (send_bearing_data_to_algorithm w df) = None
     ∧ summary (send_bearing_data_to_algorithm w df) = None
     ∧ reported_error (send_bearing_data_to_algorithm w df)
       = Some ZeroDivisionError).
Proof.
  intros Hconn Hok.
  destruct (printed_session w df) as (Htotal & Hsent & Hfailed & Hrate & Herror).
  unfold summary.
  rewrite Htotal, Hsent, Hfailed, Hrate, Herror, Hconn, Hok.
  rewrite success_percent_fst. split.
  - intros Hlen. by destruct (len df).
  - by intros ->.
Qed.

(** The main flow never starts a session on an empty table. *)
Lemma main_skips_empty w :
  is_empty (load_bearing_data (read_csv w train_data_path) true) = true →
  published (main w) = [] ∧ summary (main w) = None.
Proof.
  unfold main. cbv zeta. intros ->. rewrite app_nil_r.
  destruct (read_csv w train_data_path) as [df|]; [|done].
  simpl. by destruct (load_raises df).
Qed.

(** *** The guarantees on the sample sessions *)

(** C1 (as stated) fails on a table with no row: the session prints the
    three counters, then the division raises; the summary has no success
    rate, zero or other. *)
Lemma empty_session_has_no_rate :
  len Sample.no_rows_table = 0%nat
  ∧ connect_raises Sample.world = false
  ∧ printed_total Sample.empty_session = Some 0%nat
  ∧ printed_rate Sample.empty_session = None
  ∧ (¬ ∃ s, summary Sample.empty_session = Some s)
  ∧ reported_error Sample.empty_session = Some ZeroDivisionError.
Proof.
  repeat split; try (vm_compute; reflexivity).
  intros [s Hs]. vm_compute in Hs. discriminate.
Qed.

Lemma success_rate_witness :
  summary Sample.lossy_session
  = Some {| total := 3; succeeded := 2; failed := 1;
            success_rate := percent_of 2 3 |}.
Proof.
  destruct (success_rate_of_session Sample.lossy_world Sample.labeled_frame)
    as [H _].
  - reflexivity.
  - vm_compute. reflexivity.
  - unfold Sample.lossy_session. rewrite H by (vm_compute; discriminate).
    vm_compute. reflexivity.
Defined.

(** Three rows, all published with success: 100 percent. *)
Example all_sent_summary :
  summary Sample.session
  = Some {| total := 3; succeeded := 3; failed := 0; success_rate := 100 |}.
Proof. vm_compute. reflexivity. Qed.

(** C2 (as stated) fails when the identifier of the second of three rows
    is missing: [int] raises on it, the third row is never published and
    no summary is printed. *)
Lemma row_error_stops_session :
  len Sample.missing_id_frame = 3%nat
  ∧ connect_raises Sample.world = false
  ∧ length (published Sample.missing_id_session) = 1%nat
  ∧ summary Sample.missing_id_session = None
  ∧ printed_total Sample.missing_id_session = None
  ∧ reported_error Sample.missing_id_session = Some ValueError.
Proof. repeat split; vm_compute; reflexivity. Qed.

Lemma row_error_aborts_session_witness :
  reported_error Sample.missing_id_session = Some ValueError
  ∧ (length (published Sample.missing_id_session)
     < len Sample.missing_id_frame)%nat
  ∧ printed_total Sample.missing_id_session = None
  ∧ summary Sample.missing_id_session = None.
Proof.
  destruct (row_error_aborts_session Sample.world Sample.missing_id_frame)
    as (_ & H & _).
  apply H.
  - reflexivity.
  - vm_compute. reflexivity.
Defined.



(** C8 (as stated) fails on the same table: three rows, one delivery
    attempt, no counters. The third row is well formed and never
    attempted. *)
Lemma rows_after_an_error_are_not_attempted :
  len Sample.missing_id_frame = 3%nat
  ∧ length (published Sample.missing_id_session) = 1%nat
  ∧ length (recorded Sample.missing_id_session) = 1%nat
  ∧ printed_total Sample.missing_id_session = None
  ∧ printed_sent Sample.missing_id_session = None
  ∧ printed_failed Sample.missing_id_session = None.
Proof. repeat split; vm_compute; reflexivity. Qed.

Lemma delivery_accounting_witness :
  length (published Sample.lossy_session) = len Sample.labeled_frame
  ∧ printed_total Sample.lossy_session = Some (len Sample.labeled_frame)
  ∧ ∃ s f,
      printed_sent Sample.lossy_session = Some s
      ∧ printed_failed Sample.lossy_session = Some f
      ∧ (s + f)%nat = len Sample.labeled_frame.
Proof.
  destruct (delivery_accounting Sample.lossy_world Sample.labeled_frame)
    as (_ & _ & H).
  apply H.
  - reflexivity.
  - vm_compute. reflexivity.
Defined.

Lemma published_in_row_order_witness :
  length (published Sample.lossy_session) = len Sample.labeled_frame.
Proof.
  destruct (published_in_row_order Sample.lossy_world Sample.labeled_frame)
    as (_ & _ & H).
  apply H.
  - reflexivity.
  - vm_compute. reflexivity.
Defined.

(** The sample identifiers leave in the order 1, 2, 3. *)
Example sample_order :
  (λ p, sample_id <$> deserialize p) <$> published Sample.session
  = [Some 1; Some 2; Some 3].
Proof. vm_compute. reflexivity. Qed.

(** ** The payload read back *)

Section JsonFacts.
Import Json.
Local Open Scope char_scope.
Local Open Scope Z_scope.

Lemma span_app (p : ascii → bool) (t rest : list ascii) :
  forallb p t = true →
  match rest with c :: _ => p c = false | [] => True end →
  span p (t ++ rest) = (t, rest).
Proof.
  intros Ht Hrest. induction t as [|c t IH]; simpl in *.
  - destruct rest as [|c r]; [done|]. simpl. by rewrite Hrest.
  - apply andb_true_iff in Ht as [Hc Ht]. rewrite Hc, (IH Ht). done.
Qed.

Lemma chars_of_uint_digits d : forallb is_digit (Text.chars_of_uint d) = true.
Proof. induction d; simpl; try done. Qed.

Lemma uint_of_chars_of_uint d : Text.uint_of_chars (Text.chars_of_uint d) = d.
Proof. induction d; simpl; try done; unfold Text.uint_of_chars in *; simpl; by rewrite IHd. Qed.

Lemma nat_of_chars_of_nat n : 0 <= n → Text.nat_of_chars (Text.chars_of_nat n) = n.
Proof.
  intros Hn. unfold Text.nat_of_chars, Text.chars_of_nat.
  rewrite uint_of_chars_of_uint, DecimalN.Unsigned.of_to. lia.
Qed.

(** A printed natural number is 0 alone or starts with a non-zero digit. *)
Lemma to_uint_head n d : N.to_uint n = Decimal.D0 d → d = Decimal.Nil.
Proof.
  intros Hn. pose proof (DecimalN.Unsigned.to_of (N.to_uint n)) as Hnorm.
  rewrite DecimalN.Unsigned.of_to, Hn in Hnorm.
  rewrite unorm_D0 in Hnorm. unfold Decimal.unorm in Hnorm.
  destruct (Decimal.nzhead d) eqn:Hd; try discriminate Hnorm.
  - by injection Hnorm.
  - by apply nzhead_nonzero in Hd.
Qed.

Lemma span_all (p : ascii → bool) (t : list ascii) :
  forallb p t = true → span p t = (t, []).
Proof.
  intros Ht. rewrite <- (app_nil_r t) at 1. by apply span_app.
Qed.

Lemma int_part_nat n :
  0 <= n → int_part (Text.chars_of_nat n) = Some (Text.chars_of_nat n, []).
Proof.
  intros Hn. unfold Text.chars_of_nat.
  pose proof (to_uint_head (Z.to_N n)) as Hhead.
  pose proof (chars_of_uint_digits (N.to_uint (Z.to_N n))) as Hdig.
  assert (N.to_uint (Z.to_N n) ≠ Decimal.Nil) as Hnil.
  { destruct (Z.to_N n); simpl; [done|]. apply DecimalPos.Unsigned.to_uint_nonnil. }
  destruct (N.to_uint (Z.to_N n)) as [|d|d|d|d|d|d|d|d|d|d]; try done.
  { by rewrite (Hhead d eq_refl). }
  all: simpl in Hdig; unfold int_part; simpl; by rewrite (span_all _ _ Hdig).
Qed.

Lemma scan_escape_char c r :
  scan_string (escape_char c ++ r)
  = '(t, r') ← scan_string r; Some (c :: t, r').
Proof.
  destruct c as [[] [] [] [] [] [] [] []]; reflexivity.
Qed.

Lemma scan_escape s rest :
  scan_string (escape s ++ dquote :: rest) = Some (s, rest).
Proof.
  induction s as [|c s IH]; [reflexivity|].
  unfold escape in *. simpl. rewrite <- app_assoc, scan_escape_char, IH. done.
Qed.

Lemma parse_string f s rest :
  parse_value (S f) (encode_string s ++ rest) = Some (JStr s, rest).
Proof.
  unfold encode_string. simpl. rewrite <- app_assoc. simpl.
  rewrite scan_escape. simpl. by rewrite string_of_list_ascii_of_string.
Qed.

Lemma scan_number_app t rest j :
  forallb number_char t = true → ends_value rest →
  match_number t = Some (j, []) →
  scan_number (t ++ rest) = Some (j, rest).
Proof.
  intros Ht Hrest Hj. unfold scan_number.
  rewrite (span_app number_char t rest Ht Hrest), Hj. done.
Qed.

Lemma parse_value_number f c s :
  number_char c = true →
  parse_value (S f) (c :: s)
  = match scan_number (c :: s) with
    | Some res => Some res
    | None => keyword "-Infinity" (JFloat PrimFloat.neg_infinity) (c :: s)
    end.
Proof.
  destruct c as [[] [] [] [] [] [] [] []]; try discriminate; intros _; reflexivity.
Qed.

Lemma parse_number f t rest j :
  forallb number_char t = true → ends_value rest →
  match_number t = Some (j, []) →
  parse_value (S f) (t ++ rest) = Some (j, rest).
Proof.
  intros Ht Hrest Hj.
  pose proof (scan_number_app t rest j Ht Hrest Hj) as Hscan.
  destruct t as [|c t]; [done|].
  simpl in Ht. apply andb_true_iff in Ht as [Hc _].
  change ((c :: t) ++ rest) with (c :: (t ++ rest)) in *.
  by rewrite (parse_value_number f c _ Hc), Hscan.
Qed.

Lemma int_repr_chars z : forallb number_char (Text.int_repr z) = true.
Proof.
  assert (∀ d, forallb number_char (Text.chars_of_uint d) = true) as Hd.
  { induction d; simpl; try done. }
  unfold Text.int_repr, Text.chars_of_nat.
  destruct (z <? 0); simpl; by rewrite Hd.
Qed.

Lemma match_number_nat n :
  0 <= n → match_number (Text.chars_of_nat n) = Some (JInt n, []).
Proof.
  intros Hn. pose proof (int_part_nat n Hn) as Hint.
  pose proof (nat_of_chars_of_nat n Hn) as Hval.
  unfold match_number.
  destruct (Text.chars_of_nat n) as [|c t] eqn:Ht; [done|].
  assert (is_digit c = true) as Hc.
  { pose proof (chars_of_uint_digits (N.to_uint (Z.to_N n))) as Hdig.
    unfold Text.chars_of_nat in Ht. rewrite Ht in Hdig. simpl in Hdig.
    by apply andb_true_iff in Hdig as [? _]. }
  destruct c as [[] [] [] [] [] [] [] []]; try discriminate Hc;
    rewrite Hint; simpl; by rewrite Hval.
Qed.

Lemma match_number_int z : match_number (Text.int_repr z) = Some (JInt z, []).
Proof.
  unfold Text.int_repr. destruct (z <? 0) eqn:Hz.
  - apply Z.ltb_lt in Hz.
    pose proof (int_part_nat (- z) ltac:(lia)) as Hint.
    pose proof (nat_of_chars_of_nat (- z) ltac:(lia)) as Hval.
    unfold match_number. rewrite Hint. simpl. rewrite Hval.
    by rewrite Z.opp_involutive.
  - apply Z.ltb_ge in Hz. by apply match_number_nat.
Qed.

Lemma int_repr_nonempty z : Text.int_repr z ≠ [].
Proof.
  intros Hnil. pose proof (match_number_int z) as H. by rewrite Hnil in H.
Qed.

Lemma parse_int f z rest :
  ends_value rest →
  parse_value (S f) (Text.int_repr z ++ rest) = Some (JInt z, rest).
Proof.
  intros Hrest. apply parse_number; [apply int_repr_chars|done|].
  apply match_number_int.
Qed.

Lemma skip_ws_number c s : number_char c = true → skip_ws (c :: s) = c :: s.
Proof.
  destruct c as [[] [] [] [] [] [] [] []]; try discriminate; intros _; reflexivity.
Qed.

Lemma skip_ws_text t rest :
  forallb number_char t = true → t ≠ [] → skip_ws (t ++ rest) = t ++ rest.
Proof.
  intros Ht Hne. destruct t as [|c t]; [done|]. simpl in Ht.
  apply andb_true_iff in Ht as [Hc _]. by apply skip_ws_number.
Qed.

Lemma parses_as_mono n k v v' : parses_as n v v' → parses_as (n + k) v v'.
Proof.
  intros [Hws Hparse]. split; [done|]. intros f rest Hrest.
  rewrite <- Nat.add_assoc. by apply Hparse.
Qed.

Lemma int_parses z : parses_as 1 (JInt z) (JInt z).
Proof.
  split.
  - intros rest. apply skip_ws_text; [apply int_repr_chars|apply int_repr_nonempty].
  - intros f rest Hrest. by apply parse_int.
Qed.

Lemma string_parses s : parses_as 1 (JStr s) (JStr s).
Proof.
  split; [reflexivity|]. intros f rest _. apply parse_string.
Qed.

Lemma float_parses x :
  reads_back x = true →
  ∃ y, parses_as 1 (JFloat x) (JFloat y) ∧ PrimFloat.eqb x y = true.
Proof.
  unfold reads_back, parses_as. simpl. unfold encode_float.
  destruct (PrimFloat.is_nan x); [done|].
  destruct (PrimFloat.eqb x PrimFloat.infinity) eqn:Hinf.
  { intros _. exists PrimFloat.infinity. by repeat split. }
  destruct (PrimFloat.eqb x PrimFloat.neg_infinity) eqn:Hninf.
  { intros _. exists PrimFloat.neg_infinity. by repeat split. }
  intros [Hchars Hread]%andb_true_iff.
  destruct (match_number (Text.float_repr x)) as [[[| | |y| | |] [|]]|] eqn:Hm;
    try done.
  assert (Text.float_repr x ≠ []) as Hne.
  { intros Hnil. by rewrite Hnil in Hm. }
  exists y. split; [|done]. split.
  - intros rest. by apply skip_ws_text.
  - intros f rest Hrest. by apply parse_number.
Qed.

Lemma parse_members_unfold fuel s :
  parse_members (S fuel) s
  = '(k, r) ← scan_string s;
    match skip_ws r with
    | c :: r1 =>
        if Ascii.eqb c ":" then
          '(v, r2) ← parse_value fuel (skip_ws r1);
          let item := (string_of_list_ascii k, v) in
          match skip_ws r2 with
          | c2 :: r3 =>
              if Ascii.eqb c2 "}" then Some ([item], r3)
              else if Ascii.eqb c2 "," then
                match skip_ws r3 with
                | c3 :: r4 =>
                    if Ascii.eqb c3 dquote then
                      '(items, r5) ← parse_members fuel r4;
                      Some (item :: items, r5)
                    else None
                | [] => None
                end
              else None
          | [] => None
          end
        else None
    | [] => None
    end.
Proof. reflexivity. Qed.

Lemma encode_members_head k v l :
  encode_members encode ((k, v) :: l)
  = dquote :: escape (list_ascii_of_string k)
      ++ dquote :: ":" :: " " :: encode v
      ++ match l with
         | [] => []
         | _ => "," :: " " :: encode_members encode l
         end.
Proof. simpl. unfold encode_string. simpl. by rewrite <- app_assoc. Qed.

(** The items of a dictionary read back one by one. *)
Lemma members_parse n items items' :
  Forall2 (λ kv kv', fst kv = fst kv' ∧ parses_as n (snd kv) (snd kv'))
          items items' →
  items ≠ [] →
  ∀ f rest,
    parse_members (length items + n + f)
                  (tail (encode_members encode items) ++ "}" :: rest)
    = Some (items', rest).
Proof.
  induction 1 as [|[k v] [k' v'] l l' [Hk [Hws Hparse]] Hl IH]; [done|].
  intros _ f rest. simpl in Hk. subst k'.
  rewrite encode_members_head. simpl tail.
  change (length ((k, v) :: l) + n + f)%nat with (S (length l + n + f)).
  rewrite parse_members_unfold, <- !app_assoc.
  simpl app. rewrite scan_escape.
  cbn [mbind option_bind skip_ws is_ws Ascii.eqb Bool.eqb orb].
  simpl in Hws, Hparse.
  rewrite <- app_assoc, Hws.
  replace (length l + n + f)%nat with (n + (length l + f))%nat by lia.
  rewrite Hparse; last by destruct l.
  rewrite string_of_list_ascii_of_string.
  destruct l as [|[k2 v2] l].
  - apply Forall2_nil_inv_l in Hl as ->. reflexivity.
  - specialize (IH ltac:(done) f rest).
    rewrite encode_members_head in *. simpl tail in IH.
    cbn [mbind option_bind skip_ws is_ws Ascii.eqb Bool.eqb orb app].
    replace (n + (length ((k2, v2) :: l) + f))%nat
      with (length ((k2, v2) :: l) + n + f)%nat by lia.
    rewrite <- !app_assoc in *. simpl app in *.
    change (is_ws dquote) with false. cbn iota.
    change (Ascii.eqb dquote dquote) with true. cbn iota.
    by rewrite IH.
Qed.

Lemma dict_parses n items items' :
  Forall2 (λ kv kv', fst kv = fst kv' ∧ parses_as n (snd kv) (snd kv'))
          items items' →
  items ≠ [] →
  parses_as (S (length items + n)) (JDict items) (JDict items').
Proof.
  intros Hitems Hne. split; [reflexivity|].
  intros f rest _. destruct items as [|[k v] l]; [done|].
  pose proof (members_parse n _ _ Hitems Hne f rest) as Hm.
  cbn [encode]. rewrite encode_members_head in *. simpl tail in Hm.
  change (S (length ((k, v) :: l) + n) + f)%nat
    with (S (length ((k, v) :: l) + n + f)).
  cbn [parse_value app]. cbn [skip_ws is_ws Ascii.eqb Bool.eqb orb].
  change (is_ws dquote) with false. cbn iota.
  change (Ascii.eqb dquote dquote) with true.
  change (Ascii.eqb dquote "}") with false. cbn iota.
  rewrite <- !app_assoc in *. simpl app in *. by rewrite Hm.
Qed.

End JsonFacts.

(** *** The envelope *)

Lemma features_parse (a : Features) :
  features_read_back a = true →
  ∃ b, parses_as 7 (json_of_features a) (json_of_features b)
       ∧ features_eqb a b = true.
Proof.
  unfold features_read_back. rewrite !andb_true_iff.
  intros ((((H1 & H2) & H3) & H4) & H5).
  destruct (float_parses _ H1) as (y1 & P1 & E1).
  destruct (float_parses _ H2) as (y2 & P2 & E2).
  destruct (float_parses _ H3) as (y3 & P3 & E3).
  destruct (float_parses _ H4) as (y4 & P4 & E4).
  destruct (float_parses _ H5) as (y5 & P5 & E5).
  exists {| signal_mean := y1; signal_std := y2; signal_max := y3;
            signal_min := y4; signal_peak_to_peak := y5 |}.
  split.
  - unfold json_of_features. simpl.
    apply (dict_parses 1); [|done].
    repeat (apply List.Forall2_cons; [split; [reflexivity|assumption]|]).
    apply List.Forall2_nil.
  - unfold features_eqb. simpl. by rewrite E1, E2, E3, E4, E5.
Qed.

Lemma envelope_parses (m : Envelope) code desc level :
  fault_code m = VStr code → fault_desc m = VStr desc →
  fault_level m = VStr level →
  features_read_back (signal_features m) = true →
  ∃ b,
    features_eqb (signal_features m) b = true
    ∧ parses_as 15 (json_of_envelope m)
        (JDict [("sample_id", JInt (sample_id m));
                ("fault_code", JStr code);
                ("fault_desc", JStr desc);
                ("fault_level", JStr level);
                ("signal_features", json_of_features b);
                ("send_timestamp", JInt (send_timestamp m));
                ("send_time", JStr (send_time m))]).
Proof.
  intros Hcode Hdesc Hlevel Hfeat.
  destruct (features_parse _ Hfeat) as (b & Hb & Heq).
  unfold json_of_envelope. rewrite Hcode, Hdesc, Hlevel. simpl.
  exists b. split; [done|].
  apply (dict_parses 7); [|done].
  repeat (apply List.Forall2_cons;
          [split; [reflexivity|];
           first [ exact Hb
                 | apply (parses_as_mono 1 6), int_parses
                 | apply (parses_as_mono 1 6), string_parses ] |]).
  apply List.Forall2_nil.
Qed.

Lemma encode_envelope_long (m : Envelope) :
  (14 ≤ length (Json.encode (json_of_envelope m)))%nat.
Proof.
  unfold json_of_envelope. cbn [Json.encode]. rewrite encode_members_head.
  simpl length. rewrite !length_app. simpl. lia.
Qed.

Lemma value_eqb_text s : value_eqb (VStr s) (VStr s) = true.
Proof. simpl. apply String.eqb_refl. Qed.

(** An envelope whose classification fields are text and whose five
    feature values read back from their printed form is written to a
    payload that deserializes to an envelope equal to it field for field;
    the text and integer fields come back identical. *)
Lemma envelope_roundtrip (m : Envelope) code desc level :
  fault_code m = VStr code →
  fault_desc m = VStr desc →
  fault_level m = VStr level →
  features_read_back (signal_features m) = true →
  ∃ payload m',
    json_dumps m = (Return payload, [])
    ∧ deserialize payload = Some m'
    ∧ envelope_eqb m m' = true
    ∧ sample_id m' = sample_id m
    ∧ fault_code m' = fault_code m
    ∧ fault_desc m' = fault_desc m
    ∧ fault_level m' = fault_level m
    ∧ send_timestamp m' = send_timestamp m
    ∧ send_time m' = send_time m.
Proof.
  intros Hcode Hdesc Hlevel Hfeat.
  destruct (envelope_parses m code desc level Hcode Hdesc Hlevel Hfeat)
    as (b & Heq & Hws & Hparse).
  pose proof (encode_envelope_long m) as Hlen.
  set (j := json_of_envelope m) in *.
  destruct b as [b1 b2 b3 b4 b5].
  exists (Json.dumps j),
    {| sample_id := sample_id m; fault_code := VStr code;
       fault_desc := VStr desc; fault_level := VStr level;
       signal_features :=
         {| signal_mean := b1; signal_std := b2; signal_max := b3;
            signal_min := b4; signal_peak_to_peak := b5 |};
       send_timestamp := send_timestamp m;
       send_time := send_time m |}.
  split; [reflexivity|].
  split.
  - unfold deserialize, Json.loads, Json.dumps.
    rewrite list_ascii_of_string_of_list_ascii.
    specialize (Hws []). specialize (Hparse (length (Json.encode j) - 14)%nat [] I).
    rewrite app_nil_r in Hws, Hparse. rewrite Hws.
    replace (S (length (Json.encode j)))
      with (15 + (length (Json.encode j) - 14))%nat by lia.
    rewrite Hparse. reflexivity.
  - unfold envelope_eqb. simpl.
    rewrite Hcode, Hdesc, Hlevel, !value_eqb_text, Heq, !Z.eqb_refl, String.eqb_refl.
    done.
Qed.

(** The classification fields of an envelope built from a row of a
    loaded table are text. *)
Lemma loaded_envelope_text w k csv is_train r' m :
  r' ∈ rows (load_bearing_data (Some csv) is_train) →
  fst (build_message w k r') = Return m →
  ∃ code desc level,
    fault_code m = VStr code ∧ fault_desc m = VStr desc
    ∧ fault_level m = VStr level.
Proof.
  intros (cols & r & v & _ & _ & _ & ->)%loaded_row Hm.
  apply build_message_fields in Hm as (_ & Hc & Hd & Hl & _).
  unfold with_classification, map_label in *.
  destruct (is_train && has_column "label" csv);
    rewrite lookup_insert_ne, lookup_insert_ne, lookup_insert_eq in Hc by done;
    rewrite lookup_insert_ne, lookup_insert_eq in Hd by done;
    rewrite lookup_insert_eq in Hl;
    injection Hc as <-; injection Hd as <-; injection Hl as <-;
    by eexists _, _, _.
Qed.

(** Bytes of non-ASCII text are written as they are. *)
Lemma non_ascii_unescaped c :
  128 <= Json.code c → Json.escape_char c = [c].
Proof.
  destruct c as [[] [] [] [] [] [] [] []]; intros H; vm_compute in H;
    try (by exfalso; apply H); reflexivity.
Qed.

Example description_unescaped :
  Json.dumps (JStr "直径1-内圈故障")
  = String "034" ("直径1-内圈故障" +:+ String "034" EmptyString).
Proof. vm_compute. reflexivity. Qed.




(** The payload of that row carries the standard deviation as NaN. *)
Example one_sample_payload :
  ∃ payload features,
    fst (message_json Sample.world 0 (Sample.nth_row 0 Sample.one_sample_frame))
    = Return payload
    ∧ Json.loads payload ≫= Json.get "signal_features" = Some features
    ∧ Json.get "std" features = Some (JFloat PrimFloat.nan).
Proof.
  eexists _, _. split; [vm_compute; reflexivity|].
  split; vm_compute; reflexivity.
Qed.

(** ** Well-formed tables *)

(** The derived cells of a row of a loaded table: three texts and five
    numbers. *)
Lemma loaded_row_cells csv is_train r' :
  r' ∈ rows (load_bearing_data (Some csv) is_train) →
  (∃ code desc level,
     r' !! "fault_code" = Some (VStr code)
     ∧ r' !! "fault_desc" = Some (VStr desc)
     ∧ r' !! "fault_level" = Some (VStr level))
  ∧ ∀ name, name ∈ feature_columns →
            ∃ c, r' !! name = Some c ∧ numeric c = true.
Proof.
  intros (cols & r & v & _ & _ & _ & ->)%loaded_row.
  unfold with_classification, with_features, map_label.
  split.
  - destruct (is_train && has_column "label" csv);
      eexists _, _, _; repeat split; by simplify_map_eq.
  - intros name Hname. unfold feature_columns in Hname.
    repeat (apply elem_of_cons in Hname as [->|Hname]);
      [..|by apply elem_of_nil in Hname];
      destruct (is_train && has_column "label" csv);
      eexists; (split; [by simplify_map_eq|]); by destruct v.
Qed.

Lemma rounded_feature_fst r key c :
  r !! key = Some c → numeric c = true →
  ∃ x, Conv.py_float c = Return x
       ∧ fst (rounded_feature r key) = Return (F64.round_ndigits x 6).
Proof.
  intros Hc Hnum. unfold rounded_feature.
  rewrite bind_fst, getitem_fst, Hc. cbn beta iota.
  destruct c as [z|x|t]; [| |done]; eexists; (split; [reflexivity|]);
    by rewrite bind_fst.
Qed.

(** A row of a loaded table whose identifier is an integer always yields
    a message. *)
Lemma loaded_row_builds w k csv is_train r' z :
  r' ∈ rows (load_bearing_data (Some csv) is_train) →
  r' !! "id" = Some (VInt z) →
  ∃ p, fst (message_json w k r') = Return p.
Proof.
  intros Hin Hid.
  destruct (loaded_row_cells csv is_train r' Hin)
    as ((code & desc & level & Hc & Hd & Hl) & Hfeat).
  assert (∀ name, name ∈ feature_columns →
                  ∃ y, fst (rounded_feature r' name) = Return y) as Hround.
  { intros name Hname. destruct (Hfeat name Hname) as (c & Hcell & Hnum).
    destruct (rounded_feature_fst r' name c Hcell Hnum) as (x & _ & Hx).
    eauto. }
  destruct (Hround "signal_mean") as [y1 H1]; [repeat constructor|].
  destruct (Hround "signal_std") as [y2 H2]; [repeat constructor|].
  destruct (Hround "signal_max") as [y3 H3]; [repeat constructor|].
  destruct (Hround "signal_min") as [y4 H4]; [repeat constructor|].
  destruct (Hround "signal_peak_to_peak") as [y5 H5]; [repeat constructor|].
  unfold message_json, build_message.
  rewrite bind_fst, bind_fst, getitem_fst, Hid. cbn beta iota.
  rewrite bind_fst. cbn [lift fst Conv.py_int]. cbn beta iota.
  rewrite bind_fst, getitem_fst, Hc. cbn beta iota.
  rewrite bind_fst, getitem_fst, Hd. cbn beta iota.
  rewrite bind_fst, getitem_fst, Hl. cbn beta iota.
  rewrite bind_fst, H1. cbn beta iota.
  rewrite bind_fst, H2. cbn beta iota.
  rewrite bind_fst, H3. cbn beta iota.
  rewrite bind_fst, H4. cbn beta iota.
  rewrite bind_fst, H5. cbn beta iota.
  eexists. reflexivity.
Qed.

Lemma first_error_none w rs : ∀ k,
  Forall (λ r, ∀ k, ∃ p, fst (message_json w k r) = Return p) rs →
  first_error w k rs = None.
Proof.
  induction rs as [|r rs IH]; intros k Hall; [done|].
  apply Forall_cons in Hall as [Hr Hrs]. simpl.
  destruct (Hr k) as [p ->]. by apply IH.
Qed.

(** With integer identifiers no row of a loaded table raises, so a
    session whose connect call returns publishes every row and prints
    the counters. *)
Lemma loaded_table_fully_published w csv is_train :
  connect_raises w = false →
  Forall (λ r', ∃ z, r' !! "id" = Some (VInt z))
         (rows (load_bearing_data (Some csv) is_train)) →
  first_error w 0 (rows (load_bearing_data (Some csv) is_train)) = None
  ∧ length (published (send_bearing_data_to_algorithm w
                         (load_bearing_data (Some csv) is_train)))
    = len (load_bearing_data (Some csv) is_train).
Proof.
  intros Hconn Hids.
  assert (first_error w 0 (rows (load_bearing_data (Some csv) is_train)) = None)
    as Herr.
  { apply first_error_none. rewrite Forall_forall in *.
    intros r' Hin k. destruct (Hids r' Hin) as [z Hz].
    by apply (loaded_row_builds w k csv is_train r' z). }
  split; [done|].
  rewrite published_session, Hconn, length_fmap. by apply deliveries_all.
Qed.
